(** * splicing_quantification: the annotation and PSI normalisation core

    A shallow embedding of the scripts that build the splice table
    ([make_splice_table.py]), normalise the PSI sources
    ([process_leafcutter_psi.py], [process_rmats_psi.py]) and attach the
    observations to the transcripts ([leafcutter_to_splice_table.py],
    [rmats_to_splice_table.py], [spliser_to_splice_table.py]).

    Python values are carried as follows: [int] as [Z], [float] as the
    kernel's binary64 [float] (so NaN and rounding are the real ones),
    [str] as [string], [None] as [None : option _], a data frame as the list
    of its rows in index order, and a raised exception as [None] of the
    function's result. *)

From Stdlib Require Import ZArith List String Ascii Bool Lia Floats.
From Stdlib Require Import DecimalString Permutation Sorted.
From Stdlib Require DecimalPos DecimalZ.
Import ListNotations.

Set Warnings "-inexact-float".

Open Scope string_scope.
Open Scope Z_scope.

(** ** Python built-ins used by the scripts *)

Module Py.

(** [sep.join(l)]. *)
Definition join (sep : string) (l : list string) : string :=
  String.concat sep l.

(** [s.split(sep)] for a one-character separator: never the empty list. *)
Fixpoint split (sep : ascii) (s : string) : list string :=
  match s with
  | EmptyString => [EmptyString]
  | String c s' =>
      if Ascii.eqb c sep then EmptyString :: split sep s'
      else match split sep s' with
           | [] => [String c EmptyString]
           | w :: ws => String c w :: ws
           end
  end.

(** [s.count(c)] for a one-character pattern. *)
Fixpoint count (c : ascii) (s : string) : nat :=
  match s with
  | EmptyString => O
  | String a s' => ((if Ascii.eqb a c then 1 else 0) + count c s')%nat
  end.

(** [sub in s]. *)
Fixpoint contains (sub s : string) : bool :=
  if String.prefix sub s then true
  else match s with
       | EmptyString => false
       | String _ s' => contains sub s'
       end.

(** [s[-1]], the empty string standing for the IndexError pandas turns
    into a missing value. *)
Fixpoint last_char (s : string) : string :=
  match s with
  | EmptyString => EmptyString
  | String c EmptyString => String c EmptyString
  | String _ s' => last_char s'
  end.

(** [s[:-1]]. *)
Fixpoint drop_last (s : string) : string :=
  match s with
  | EmptyString => EmptyString
  | String _ EmptyString => EmptyString
  | String c s' => String c (drop_last s')
  end.

(** [s.rstrip(c)]. *)
Fixpoint rstrip (c : ascii) (s : string) : string :=
  match s with
  | EmptyString => EmptyString
  | String a s' =>
      match rstrip c s' with
      | EmptyString => if Ascii.eqb a c then EmptyString else String a EmptyString
      | r => String a r
      end
  end.

(** [str(z)] for an [int]. *)
Definition str_int (z : Z) : string :=
  NilZero.string_of_int (Z.to_int z).

(** [int(s)] on a decimal literal with an optional sign; [None] is the
    ValueError.  (Python also accepts blanks around the literal and
    underscores between digits; such texts are not modelled.) *)
Definition int_of_str (s : string) : option Z :=
  match s with
  | String "+" s' =>
      match s' with
      | String "-" _ => None
      | _ => option_map Z.of_int (NilZero.int_of_string s')
      end
  | _ => option_map Z.of_int (NilZero.int_of_string s)
  end.

(** The shortest decimal that reads back as the float [m * 2^e]
    ([m] its 53-bit mantissa, an even [m] owning both ends of its rounding
    interval): [(d, p)] stands for [0.d * 10^p]. *)
Section Shortest.
Variables (m : Z) (e : Z).

(* value, and the two ends of the rounding interval, in units of 2^(e-2) *)
Let v4 := 4 * m.
Let lo4 := if (m =? 2 ^ 52) && (-1074 <? e) then 4 * m - 1 else 4 * m - 2.
Let hi4 := 4 * m + 2.
Let pnum := 2 ^ Z.max (e - 2) 0.
Let pden := 2 ^ Z.max (2 - e) 0.

(* c * 10^q compared with x * 2^(e-2) *)
Definition cmp_dec (c q x : Z) : comparison :=
  (c * 10 ^ Z.max q 0 * pden) ?= (x * pnum * 10 ^ Z.max (- q) 0).

Fixpoint find_decpt (fuel : nat) (p : Z) : Z :=
  match fuel with
  | O => p
  | S fuel' =>
      match cmp_dec 1 p v4 with
      | Gt => p
      | _ => find_decpt fuel' (p + 1)
      end
  end.

Definition in_interval (c q : Z) : bool :=
  match cmp_dec c q lo4, cmp_dec c q hi4 with
  | Gt, Lt => true
  | Eq, Lt | Gt, Eq => Z.even m
  | _, _ => false
  end.

(* twice the distance from c * 10^q to the value, same units, scaled *)
Definition dist (c q : Z) : Z :=
  Z.abs (c * 10 ^ Z.max q 0 * pden - v4 * pnum * 10 ^ Z.max (- q) 0).

Definition candidate (p : Z) (n : Z) : option Z :=
  let q := p - n in
  let c := (v4 * pnum * 10 ^ Z.max (- q) 0) / (10 ^ Z.max q 0 * pden) in
  match in_interval c q, in_interval (c + 1) q with
  | true, true =>
      Some (match dist c q ?= dist (c + 1) q with
            | Lt => c
            | Gt => c + 1
            | Eq => if Z.even c then c else c + 1
            end)
  | true, false => Some c
  | false, true => Some (c + 1)
  | false, false => None
  end.

Fixpoint shortest_from (fuel : nat) (p n : Z) : Z * Z :=
  match fuel with
  | O => (v4 * pnum * 10 ^ Z.max (n - p) 0 / (10 ^ Z.max (p - n) 0 * pden), n)
  | S fuel' =>
      match candidate p n with
      | Some c => (c, n)
      | None => shortest_from fuel' p (n + 1)
      end
  end.

Definition shortest : Z * Z :=
  let p := find_decpt 700 (-330) in
  let '(c, n) := shortest_from 17 p 1 in
  (c, p - n).
End Shortest.

(** Trailing zeros move from the digits into the exponent. *)
Fixpoint strip_zeros (fuel : nat) (c q : Z) : Z * Z :=
  match fuel with
  | O => (c, q)
  | S fuel' => if (0 <? c) && (c mod 10 =? 0) then strip_zeros fuel' (c / 10) (q + 1)
               else (c, q)
  end.

Fixpoint zeros (n : nat) : string :=
  match n with
  | O => ""
  | S n' => String "0" (zeros n')
  end.

(** [repr] of a positive finite float from its digits [ds] and the position
    [decpt] of the decimal point ([0.ds * 10^decpt]). *)
Definition format_short (ds : string) (decpt : Z) : string :=
  let nd := Z.of_nat (String.length ds) in
  if (decpt <=? -4) || (16 <? decpt) then
    let ex := decpt - 1 in
    let mant := match ds with
                | String d "" => String d ""
                | String d rest => String d ("." ++ rest)
                | "" => ""
                end in
    let exs := str_int (Z.abs ex) in
    mant ++ "e" ++ (if ex <? 0 then "-" else "+")
         ++ (if Z.abs ex <? 10 then "0" ++ exs else exs)
  else if decpt <=? 0 then "0." ++ zeros (Z.to_nat (- decpt)) ++ ds
  else if nd <=? decpt then ds ++ zeros (Z.to_nat (decpt - nd)) ++ ".0"
  else substring 0 (Z.to_nat decpt) ds ++ "."
       ++ substring (Z.to_nat decpt) (Z.to_nat (nd - decpt)) ds.

(** [str(x)] (and [repr(x)]) for a [float]. *)
Definition str_float (x : float) : string :=
  match Prim2SF x with
  | S754_nan => "nan"
  | S754_infinity s => if s then "-inf" else "inf"
  | S754_zero s => if s then "-0.0" else "0.0"
  | S754_finite s m e =>
      let '(c, q) := shortest (Z.pos m) e in
      let '(c, q) := strip_zeros 20 c q in
      let ds := str_int c in
      (if s then "-" else "") ++ format_short ds (q + Z.of_nat (String.length ds))
  end.


(** The float nearest to [a / b] ([0 < a], [0 < b]), ties to even. *)
Definition round_ratio (neg : bool) (a b : Z) : float :=
  let e0 := Z.max (Z.log2 a - Z.log2 b - 53) (-1074) in
  let quo e := if 0 <=? e then a / (b * 2 ^ e) else (a * 2 ^ (- e)) / b in
  let e := if 2 ^ 53 <=? quo e0 then e0 + 1 else e0 in
  let num := if 0 <=? e then a else a * 2 ^ (- e) in
  let den := if 0 <=? e then b * 2 ^ e else b in
  let q := num / den in
  let r := num mod den in
  let q' := match 2 * r ?= den with
            | Lt => q
            | Gt => q + 1
            | Eq => if Z.even q then q else q + 1
            end in
  match q' with
  | Z.pos p => SF2Prim (S754_finite neg p e)
  | _ => SF2Prim (S754_zero neg)
  end.

(** [s] cut at the first character satisfying [f]. *)
Fixpoint cut (f : ascii -> bool) (s : string) : string * option string :=
  match s with
  | EmptyString => (EmptyString, None)
  | String c s' =>
      if f c then (EmptyString, Some s')
      else let '(a, b) := cut f s' in (String c a, b)
  end.

Definition digits_of (s : string) : option Z :=
  option_map Z.of_uint (NilZero.uint_of_string s).

Definition signed (s : string) : bool * string :=
  match s with
  | String "-" s' => (true, s')
  | String "+" s' => (false, s')
  | _ => (false, s)
  end.

(** [float(s)] on a decimal literal: sign, digits with an optional
    fraction, optional exponent, rounded to the nearest float; [None] is the
    ValueError.  (Python also accepts [inf], [nan], blanks around the literal
    and underscores between digits; such texts are not modelled.) *)
Definition float_of_str (s : string) : option float :=
  let '(neg, body) := signed s in
  let '(mant, ex) := cut (fun c => Ascii.eqb c "e" || Ascii.eqb c "E")%char body in
  let '(ip, fp) := cut (fun c => Ascii.eqb c ".")%char mant in
  let fp' := match fp with Some f => f | None => EmptyString end in
  let ds := ip ++ fp' in
  let ex10 := match ex with
              | None => Some 0
              | Some t => let '(eneg, et) := signed t in
                          option_map (fun z => if eneg then - z else z) (digits_of et)
              end in
  match digits_of ds, ex10 with
  | Some n, Some x =>
      let sc := x - Z.of_nat (String.length fp') in
      let mag := sc + Z.of_nat (String.length ds) in
      Some (if n =? 0 then SF2Prim (S754_zero neg)
            else if 400 <? sc then SF2Prim (S754_infinity neg)
            else if mag <? -400 then SF2Prim (S754_zero neg)
            else round_ratio neg (n * 10 ^ Z.max sc 0) (10 ^ Z.max (- sc) 0))
  | _, _ => None
  end.

(** [float(z)] for an [int] below 2^63 in magnitude. *)
Definition float_of_int (z : Z) : float :=
  if z <? 0 then PrimFloat.opp (PrimFloat.of_uint63 (Uint63Axioms.of_Z (- z)))
  else PrimFloat.of_uint63 (Uint63Axioms.of_Z z).

End Py.

(** ** Data frames

    A cell holds what pandas holds after reading a file: an integer, a
    missing value, or text.  A row is the list of its cells, and a frame the
    list of its rows in index order. *)

Inductive cell : Type :=
| Num (z : Z)
| NaN
| Str (s : string).

Definition row : Type := list cell.

(** [row[i]]; a row shorter than the frame is padded with missing values. *)
Definition col (i : nat) (r : row) : cell := nth i r NaN.

(** [frame[i] = column], cell by cell: a row too short is left as it is. *)
Fixpoint set_col (i : nat) (c : cell) (r : row) : row :=
  match i, r with
  | O, _ :: r' => c :: r'
  | S i', x :: r' => x :: set_col i' c r'
  | _, [] => []
  end.

(** [series == scalar], one element. *)
Definition cell_eqb (a b : cell) : bool :=
  match a, b with
  | Num x, Num y => x =? y
  | Str s, Str t => String.eqb s t
  | _, _ => false
  end.

(** [series >= scalar] and [series <= scalar] for an integer series, one
    element: a missing scalar compares false, a text scalar raises
    TypeError. *)
Definition ge_scalar (p : Z) (c : cell) : option bool :=
  match c with
  | Num z => Some (z <=? p)
  | NaN => Some false
  | Str _ => None
  end.

Definition le_scalar (p : Z) (c : cell) : option bool :=
  match c with
  | Num z => Some (p <=? z)
  | NaN => Some false
  | Str _ => None
  end.

Definition is_missing (c : cell) : bool :=
  match c with NaN => true | _ => false end.

Definition is_text (c : cell) : bool :=
  match c with Str _ => true | _ => false end.

(** A normalised observation: the columns the join reads from a per-source
    PSI table ([chromosome], [position], [psi] in the LeafCutter table;
    [chr], [splice_site], [average_psi_across_samples] in the rMATS table;
    [Region], [Site], [mean_SSE] in the splice-efficiency table). *)
Record observation : Type := mkObs {
  chromosome : cell;
  position : Z;
  psi : float
}.

(** A splice-table row with the two columns the assemblers add. *)
Record out_row : Type := mkOut {
  cells : row;
  positions : string;
  PSI : string
}.

(** [','.join(map(str, xs)) + ','] *)
Definition serialize (l : list string) : string :=
  Py.join "," l ++ ",".

(** The boolean mask of the join at one observation: the three comparisons
    are all evaluated, so one that raises makes the whole mask raise. *)
Definition mask (r : row) (o : observation) : option bool :=
  match ge_scalar (position o) (col 4 r), le_scalar (position o) (col 5 r) with
  | Some b, Some c => Some (cell_eqb (chromosome o) (col 2 r) && b && c)
  | _, _ => None
  end.

(** [df[(df[chromosome] == row[2]) & (df[position] >= row[4]) &
        (df[position] <= row[5])]] *)
Fixpoint matching_rows (r : row) (df : list observation)
  : option (list observation) :=
  match df with
  | [] => Some []
  | o :: df' =>
      match mask r o, matching_rows r df' with
      | Some b, Some m => Some (if b then o :: m else m)
      | _, _ => None
      end
  end.

Definition positions_of (m : list observation) : string :=
  serialize (map (fun o => Py.str_int (position o)) m).

Definition psi_values_of (m : list observation) : string :=
  serialize (map (fun o => Py.str_float (psi o)) m).

(** [frame.at[idx, column] = value] on a list. *)
Fixpoint store {A : Type} (i : nat) (x : A) (l : list A) : list A :=
  match i, l with
  | O, _ :: l' => x :: l'
  | S i', y :: l' => y :: store i' x l'
  | _, [] => []
  end.

(** *** Writing a frame as text *)

(** A column without text that has a missing value is a float column. *)
Definition float_column (table : list row) (j : nat) : bool :=
  existsb (fun r => is_missing (col j r)) table
  && forallb (fun r => negb (is_text (col j r))) table.

Definition fmt_cell (as_float : bool) (c : cell) : string :=
  match c with
  | Num z => if as_float then Py.str_float (Py.float_of_int z) else Py.str_int z
  | NaN => ""
  | Str s => s
  end.

Fixpoint fmt_cells (table : list row) (j : nat) (r : row) : list string :=
  match r with
  | [] => []
  | c :: r' => fmt_cell (float_column table j) c :: fmt_cells table (S j) r'
  end.

Definition newline : string := String (ascii_of_nat 10) "".
Definition tab : string := String (ascii_of_nat 9) "".

(** [frame.to_csv(path, sep=tab, index=False, header=False)]: [table] is the
    frame the column types come from, [emitted] its rows that are written.
    Fields needing quotes (a tab or a line break inside) are outside the
    model. *)
Definition to_csv (table : list row) (emitted : list out_row) : string :=
  String.concat ""
    (map (fun r => Py.join tab (fmt_cells table 0 (cells r) ++ [positions r; PSI r])
                   ++ newline) emitted).

(** ** The worker pool

    [ThreadPoolExecutor(max_workers)]: the submitted tasks are queued in
    submission order, at most [max_workers] of them run at a time, and a
    schedule lists the tasks in the order they finish. *)

Module Pool.

(** The schedules a pool of [max_workers] threads can produce for the tasks
    [todo] still unfinished (in submission order): the task that finishes
    next is one of the first [max_workers] unfinished ones, and every task
    finishes. *)
Fixpoint admissible (max_workers : nat) (todo sched : list nat) : bool :=
  match sched with
  | [] => match todo with [] => true | _ => false end
  | i :: sched' =>
      existsb (Nat.eqb i) (firstn max_workers todo)
      && admissible max_workers (remove Nat.eq_dec i todo) sched'
  end.

(** The futures after the tasks finished in the order [sched]: slot [i]
    holds the result of task [i] once it has finished. *)
Fixpoint complete {R : Type} (tasks : list R) (sched : list nat)
  (futures : list (option R)) : list (option R) :=
  match sched with
  | [] => futures
  | i :: sched' =>
      complete tasks sched'
        (match nth_error tasks i with
         | Some r => store i (Some r) futures
         | None => futures
         end)
  end.

(** [executor.submit] for each task, then the pool run to the end. *)
Definition run {R : Type} (tasks : list R) (sched : list nat) : list (option R) :=
  complete tasks sched (repeat None (List.length tasks)).

(** [future.result()]: [None] when the task never finishes. *)
Definition result {R : Type} (futures : list (option R)) (i : nat) : option R :=
  nth i futures None.

End Pool.

(** ** Reading the splice table *)

(** [pd.to_numeric(column, errors='coerce')], one cell; [parse_number] is
    pandas' reading of a text as a number. *)
Definition to_numeric (parse_number : string -> option Z) (c : cell) : cell :=
  match c with
  | Num z => Num z
  | NaN => NaN
  | Str s => match parse_number s with
             | Some z => Num z
             | None => NaN
             end
  end.

(** [pd.read_csv(path, sep=tab, header=None)] and
    [pd.read_csv(path, sep=tab)] on the records of the file: with a header the
    first record becomes the column names; an empty file raises. *)
Definition read_csv (header : bool) (file : list row) : option (list row) :=
  match file with
  | [] => None
  | _ :: rest => Some (if header then rest else file)
  end.

(** [df[columns].mean(axis=1, skipna=True)] for one row: the values that are
    not missing, added from the left and divided by their number; NaN when
    there is none. *)
Definition mean_skipna (xs : list float) : float :=
  let valid := filter (fun x => negb (PrimFloat.is_nan x)) xs in
  PrimFloat.div (fold_left PrimFloat.add valid PrimFloat.zero)
                (Py.float_of_int (Z.of_nat (List.length valid))).

(** ** leafcutter_to_splice_table.py *)

Module LeafcutterTable.
Section Assembler.
Variable parse_number : string -> option Z.

Definition process_row (idx : nat) (r : row) (df : list observation)
  : option (nat * string * string) :=
  match matching_rows r df with
  | Some m => Some (idx, positions_of m, psi_values_of m)
  | None => None
  end.

(** [splice_table[4] = pd.to_numeric(splice_table[4], errors='coerce')] and
    the same for column 5, on one row. *)
Definition coerce (r : row) : row :=
  let r4 := set_col 4 (to_numeric parse_number (col 4 r)) r in
  set_col 5 (to_numeric parse_number (col 5 r4)) r4.

(** [for future in futures: ...]: the futures are visited in submission
    order; a task that raised raises here, one that never finishes blocks. *)
Fixpoint collect (futures : list (option (option (nat * string * string))))
  (order : list nat) (table : list out_row) : option (list out_row) :=
  match order with
  | [] => Some table
  | i :: order' =>
      match Pool.result futures i with
      | Some (Some (idx, p, v)) =>
          match nth_error table idx with
          | Some r => collect futures order' (store idx (mkOut (cells r) p v) table)
          | None => None
          end
      | _ => None
      end
  end.

Definition keep (r : out_row) : bool :=
  negb (String.eqb (positions r) ",") && negb (String.eqb (PSI r) ",").

(** The frame that is written: the rows left after the filter. *)
Definition emitted_rows (df : list observation) (file : list row)
  (n_threads : nat) (sched : list nat) : option (list out_row) :=
  match read_csv false file with
  | None => None
  | Some splice_table =>
      let table := map (fun r => mkOut (coerce r) "" "") splice_table in
      match n_threads with
      | O => None
      | S _ =>
          let tasks :=
            map (fun ir => process_row (fst ir) (cells (snd ir)) df)
                (combine (seq 0 (List.length table)) table) in
          let futures := Pool.run tasks sched in
          match collect futures (seq 0 (List.length table)) table with
          | Some table' => Some (filter keep table')
          | None => None
          end
      end
  end.

(** The text of the output file. *)
Definition process_splice_table (df : list observation) (file : list row)
  (n_threads : nat) (sched : list nat) : option string :=
  match emitted_rows df file n_threads sched with
  | Some rows => Some (to_csv (map coerce file) rows)
  | None => None
  end.

End Assembler.
End LeafcutterTable.

(** ** rmats_to_splice_table.py *)

Module RmatsTable.
Section Assembler.
Variable parse_number : string -> option Z.

Definition coerce (r : row) : row :=
  let r4 := set_col 4 (to_numeric parse_number (col 4 r)) r in
  set_col 5 (to_numeric parse_number (col 5 r4)) r4.

(** [for idx, row in splice_table.iterrows(): ...] *)
Fixpoint annotate (df : list observation) (rows : list (nat * out_row))
  (table : list out_row) : option (list out_row) :=
  match rows with
  | [] => Some table
  | (idx, r) :: rows' =>
      match matching_rows (cells r) df with
      | Some m =>
          match nth_error table idx with
          | Some r' =>
              annotate df rows'
                (store idx (mkOut (cells r') (positions_of m) (psi_values_of m)) table)
          | None => None
          end
      | None => None
      end
  end.

Definition keep (r : out_row) : bool :=
  negb (String.eqb (positions r) ",") && negb (String.eqb (PSI r) ",").

Definition emitted_rows (df : list observation) (file : list row)
  : option (list out_row) :=
  match read_csv false file with
  | None => None
  | Some splice_table =>
      let table := map (fun r => mkOut (coerce r) "" "") splice_table in
      match annotate df (combine (seq 0 (List.length table)) table) table with
      | Some table' => Some (filter keep table')
      | None => None
      end
  end.

Definition process_rmats_splice_table (df : list observation) (file : list row)
  : option string :=
  match emitted_rows df file with
  | Some rows => Some (to_csv (map coerce file) rows)
  | None => None
  end.

End Assembler.
End RmatsTable.

(** ** spliser_to_splice_table.py *)

Module SpliserTable.

(** A row of the splice-efficiency table: the key columns and the replicate
    columns whose names end in [SSE], [alpha] and [beta]. *)
Record spliser_row : Type := mkSpliser {
  Region : cell;
  Site : Z;
  Strand : cell;
  Gene : cell;
  SSE : list float;
  alpha : list float;
  beta : list float
}.

(** A row of [mean_sse_df]. *)
Record mean_row : Type := mkMean {
  key : spliser_row;
  mean_SSE : float;
  mean_alpha : float;
  mean_beta : float
}.

Definition mean_sse_df (spliser_output : list spliser_row) : list mean_row :=
  map (fun r => mkMean r (mean_skipna (SSE r)) (mean_skipna (alpha r))
                       (mean_skipna (beta r))) spliser_output.

(** [mean_sse_df.dropna(subset=['mean_SSE'])] *)
Definition mean_sse_df_clean (spliser_output : list spliser_row) : list mean_row :=
  filter (fun r => negb (PrimFloat.is_nan (mean_SSE r))) (mean_sse_df spliser_output).

(** The three columns [process_row] reads. *)
Definition as_observation (r : mean_row) : observation :=
  mkObs (Region (key r)) (Site (key r)) (mean_SSE r).

Definition process_row (r : row) (clean : list mean_row) : option (string * string) :=
  match matching_rows r (map as_observation clean) with
  | Some m => Some (positions_of m, psi_values_of m)
  | None => None
  end.

Fixpoint collect (futures : list (option (option (string * string))))
  (order : list nat) (table : list out_row) : option (list out_row) :=
  match order with
  | [] => Some table
  | i :: order' =>
      match Pool.result futures i with
      | Some (Some (p, v)) =>
          match nth_error table i with
          | Some r => collect futures order' (store i (mkOut (cells r) p v) table)
          | None => None
          end
      | _ => None
      end
  end.

Definition keep (r : out_row) : bool :=
  negb (String.eqb (positions r) ",") || negb (String.eqb (PSI r) ",").

Definition emitted_rows (spliser_output : list spliser_row) (file : list row)
  (n_threads : nat) (sched : list nat) : option (list out_row) :=
  let clean := mean_sse_df_clean spliser_output in
  match read_csv true file with
  | None => None
  | Some splice_table =>
      let table := map (fun r => mkOut r "" "") splice_table in
      match n_threads with
      | O => None
      | S _ =>
          let tasks := map (fun r => process_row (cells r) clean) table in
          let futures := Pool.run tasks sched in
          match collect futures (seq 0 (List.length table)) table with
          | Some table' => Some (filter keep table')
          | None => None
          end
      end
  end.

Definition main (spliser_output : list spliser_row) (file : list row)
  (n_threads : nat) (sched : list nat) : option string :=
  match emitted_rows spliser_output file n_threads sched with
  | Some rows => Some (to_csv (tl file) rows)
  | None => None
  end.

End SpliserTable.

(** ** process_leafcutter_psi.py *)

Module LeafcutterPsi.

(** A row of the LeafCutter PSI table: the intron key of the index column and
    the replicate columns, a missing value being NaN. *)
Record intron_row : Type := mkIntron {
  intron_info : string;
  samples : list float
}.

(** The row once the key is decoded and the average taken. *)
Record decoded_row : Type := mkDecoded {
  d_intron_info : string;
  d_chromosome : string;
  intron_start : Z;
  intron_end : Z;
  exon_start : Z;
  exon_end : Z;
  cluster_id : string;
  strand : string;
  average_psi : float
}.

(** The columns derived from one key [chrom:start:end:cluster_strand].  The
    key has four fields and two integer coordinates; the model stops
    ([None]) at any other key, where [astype(int)] or the column assignment
    raises (pandas pads a key of three fields instead). *)
Definition decode (r : intron_row) : option decoded_row :=
  match Py.split ":" (intron_info r) with
  | [chrom; istart; iend; cluster_id_strand] =>
      match Py.int_of_str istart, Py.int_of_str iend with
      | Some s, Some e =>
          Some (mkDecoded (intron_info r) chrom s e (e + 1) (s - 1)
                  (Py.rstrip "_" (Py.drop_last cluster_id_strand))
                  (Py.last_char cluster_id_strand)
                  (mean_skipna (samples r)))
      | _, _ => None
      end
  | _ => None
  end.

Fixpoint decode_all (df : list intron_row) : option (list decoded_row) :=
  match df with
  | [] => Some []
  | r :: df' =>
      match decode r, decode_all df' with
      | Some d, Some ds => Some (d :: ds)
      | _, _ => None
      end
  end.

(** The keys [(cluster_id, position, boundary_type)] of
    [position_accumulator] and its values. *)
Definition dkey : Type := (string * Z * string)%type.

Record accumulator : Type := mkAcc {
  acc_psi : float;
  acc_intron_info : string;
  acc_chromosome : string;
  acc_strand : string
}.

(** A Python dict: the items in insertion order, one per key. *)
Definition dict : Type := list (dkey * accumulator).

Definition key_eqb (a b : dkey) : bool :=
  let '(c1, p1, t1) := a in
  let '(c2, p2, t2) := b in
  String.eqb c1 c2 && (p1 =? p2) && String.eqb t1 t2.

(** [d.get(k)] *)
Fixpoint dict_get (k : dkey) (d : dict) : option accumulator :=
  match d with
  | [] => None
  | (k', a) :: d' => if key_eqb k k' then Some a else dict_get k d'
  end.

(** [d[k] = a]: in place for a key already there, at the end otherwise. *)
Fixpoint dict_set (k : dkey) (a : accumulator) (d : dict) : dict :=
  match d with
  | [] => [(k, a)]
  | (k', a') :: d' =>
      if key_eqb k k' then (k', a) :: d' else (k', a') :: dict_set k a d'
  end.

(** [if k not in d: d[k] = {psi: 0, ...}] then [d[k][psi] += average_psi] *)
Definition add_position (k : dkey) (r : decoded_row) (d : dict) : dict :=
  let d1 := match dict_get k d with
            | None => dict_set k (mkAcc PrimFloat.zero (d_intron_info r)
                                        (d_chromosome r) (strand r)) d
            | Some _ => d
            end in
  match dict_get k d1 with
  | Some a => dict_set k (mkAcc (PrimFloat.add (acc_psi a) (average_psi r))
                                (acc_intron_info a) (acc_chromosome a)
                                (acc_strand a)) d1
  | None => d1
  end.

(** The body of [for _, row in df.iterrows()]. *)
Definition accumulate_row (d : dict) (r : decoded_row) : dict :=
  let d1 := add_position (cluster_id r, exon_start r, "exon_start") r d in
  add_position (cluster_id r, exon_end r, "exon_end") r d1.

Definition position_accumulator (rows : list decoded_row) : dict :=
  fold_left accumulate_row rows [].

(** A row of [summed_position_df], the table that is written. *)
Record summed_row : Type := mkSummed {
  s_cluster_id : string;
  s_position : Z;
  s_type : string;
  s_psi : float;
  s_intron_info : string;
  s_chromosome : string;
  s_strand : string
}.

Definition summed_position_df (d : dict) : list summed_row :=
  map (fun item =>
         let '(c, p, t, a) := item in
         mkSummed c p t (acc_psi a) (acc_intron_info a) (acc_chromosome a)
                  (acc_strand a)) d.

Definition process_leafcutter_data (df : list intron_row) : option (list summed_row) :=
  match decode_all df with
  | Some rows => Some (summed_position_df (position_accumulator rows))
  | None => None
  end.

(** The written table as [leafcutter_to_splice_table.py] reads it back. *)
Definition as_observation (r : summed_row) : observation :=
  mkObs (Str (s_chromosome r)) (s_position r) (s_psi r).

End LeafcutterPsi.

(** ** process_rmats_psi.py *)

Module RmatsPsi.
Local Open Scope list_scope.

(** A row of an rMATS event table: the columns every event type has, and the
    coordinate columns of the event type by name. *)
Record event_row : Type := mkEvent {
  ID : Z;
  geneSymbol : string;
  chr : string;
  strand : string;
  IncLevel1 : string;
  FDR : float;
  coord : string -> Z
}.

(** A row of the frame [extract_splice_sites] returns; [psi_1 = None] is an
    undefined PSI. *)
Record site_row : Type := mkSite {
  s_ID : Z;
  s_geneSymbol : string;
  s_chr : string;
  s_strand : string;
  splice_site : Z;
  site_type : string;
  event_type : string;
  form_type : string;
  psi_1 : option float;
  s_FDR : float
}.

(** [[float(v) for v in values if v != 'NA']]; [None] is the ValueError of
    [float]. *)
Fixpoint valid_values (values : list string) : option (list float) :=
  match values with
  | [] => Some []
  | v :: values' =>
      if String.eqb v "NA" then valid_values values'
      else match Py.float_of_str v, valid_values values' with
           | Some x, Some xs => Some (x :: xs)
           | _, _ => None
           end
  end.

(** [calculate] of [safe_psi_calculation]: [sum] adds the values from the
    left, starting at 0. *)
Definition calculate (psi : string) : option (option float) :=
  match valid_values (Py.split "," psi) with
  | None => None
  | Some [] => Some None
  | Some valid =>
      Some (Some (PrimFloat.div (fold_left PrimFloat.add valid PrimFloat.zero)
                                (Py.float_of_int (Z.of_nat (List.length valid)))))
  end.

(** [lambda x: 1 - x if x is not None else None] *)
Definition skip_of (x : option float) : option float :=
  match x with
  | Some v => Some (PrimFloat.sub PrimFloat.one v)
  | None => None
  end.

(** An event row with its two computed columns,
    [df['psi_1'] = safe_psi_calculation('IncLevel1')] and
    [df['skip_psi_1']]. *)
Record scored_row : Type := mkScored {
  ev : event_row;
  ev_psi_1 : option float;
  ev_skip_psi_1 : option float
}.

Fixpoint score (df : list event_row) : option (list scored_row) :=
  match df with
  | [] => Some []
  | r :: df' =>
      match calculate (IncLevel1 r), score df' with
      | Some p, Some rs => Some (mkScored r p (skip_of p) :: rs)
      | _, _ => None
      end
  end.

(** One of the frames a branch builds: a site, its role, the form and the
    PSI column, for every event. *)
Definition frame (event : string) (role form : string)
  (site : scored_row -> Z) (value : scored_row -> option float)
  (df : list scored_row) : list site_row :=
  map (fun x => mkSite (ID (ev x)) (geneSymbol (ev x)) (chr (ev x)) (strand (ev x))
                       (site x) role event form (value x) (FDR (ev x))) df.




End RmatsPsi.

(** ** Sorting

    [sorted] and [sort_values] are stable; so is insertion from the right. *)

Section Sorting.
Context {A : Type} (le : A -> A -> bool).

Fixpoint insert (x : A) (l : list A) : list A :=
  match l with
  | [] => [x]
  | y :: l' => if le x y then x :: y :: l' else y :: insert x l'
  end.

Fixpoint isort (l : list A) : list A :=
  match l with
  | [] => []
  | x :: l' => insert x (isort l')
  end.

End Sorting.

(** [sorted(xs)] for integers. *)
Definition sorted (xs : list Z) : list Z := isort Z.leb xs.

(** The distinct elements of a list, in the order of their first
    occurrence. *)
Fixpoint unique (l : list string) : list string :=
  match l with
  | [] => []
  | x :: l' => x :: filter (fun y => negb (String.eqb x y)) (unique l')
  end.

(** ** make_splice_table.py *)

Module MakeSpliceTable.
Local Open Scope list_scope.

Definition quote : string := String (ascii_of_nat 34) EmptyString.

(** The text matched by [[^quote]+] when a quote follows it. *)
Fixpoint until_quote (s : string) : option string :=
  match s with
  | EmptyString => None
  | String c s' =>
      if Ascii.eqb c (ascii_of_nat 34) then Some EmptyString
      else match until_quote s' with
           | Some v => Some (String c v)
           | None => None
           end
  end.

Fixpoint skip (n : nat) (s : string) : string :=
  match n, s with
  | S n', String _ s' => skip n' s'
  | _, _ => s
  end.

(** [re.search(pattern, s)] for [pattern = prefix + '([^quote]+)' + quote]:
    the group of the leftmost match. *)
Fixpoint search (pre : string) (s : string) : option string :=
  let here := if String.prefix pre s
              then match until_quote (skip (String.length pre) s) with
                   | Some (String c v) => Some (String c v)
                   | _ => None
                   end
              else None in
  match here with
  | Some v => Some v
  | None => match s with
            | EmptyString => None
            | String _ s' => search pre s'
            end
  end.

Definition extract_attribute (attr_string attr_name : string) : option string :=
  search (attr_name ++ " " ++ quote)%string attr_string.

(** A record of the annotation. *)
Record gtf_row : Type := mkGtf {
  seqname : string;
  source : string;
  feature : string;
  start : Z;
  end_ : Z;
  score : string;
  strand : string;
  frame : string;
  attributes : string
}.

(** A row of [gtf_data_parsed]. *)
Record parsed_row : Type := mkParsed {
  gtf : gtf_row;
  gene_id : option string;
  transcript_id : option string;
  gene_name : option string;
  gene_type : option string;
  transcript_type : option string;
  level : option string;
  tag : option string;
  havana_gene : option string;
  havana_transcript : option string
}.

Definition parse (r : gtf_row) : parsed_row :=
  let a := extract_attribute (attributes r) in
  mkParsed r (a "gene_id") (a "transcript_id") (a "gene_name") (a "gene_type")
           (a "transcript_type") (a "level") (a "tag") (a "havana_gene")
           (a "havana_transcript").

Definition gtf_data_parsed (gtf_data : list gtf_row) : list parsed_row :=
  map parse gtf_data.

Definition opt_eqb (a : option string) (s : string) : bool :=
  match a with
  | Some x => String.eqb x s
  | None => false
  end.

Definition protein_coding_genes (parsed : list parsed_row) : list parsed_row :=
  filter (fun r => opt_eqb (gene_type r) "protein_coding") parsed.

(** [str(x)] for an attribute. *)
Definition str_opt (x : option string) : string :=
  match x with
  | Some s => s
  | None => "None"
  end.

Definition appris_priority (x : option string) : nat :=
  if Py.contains "appris_principal_1" (str_opt x) then 1
  else if Py.contains "appris_principal_2" (str_opt x) then 2
  else if Py.contains "appris_principal_3" (str_opt x) then 3
  else if Py.contains "appris_principal_4" (str_opt x) then 4
  else if Py.contains "appris_principal_5" (str_opt x) then 5
  else 6.

(** The order of [sort_values(['gene_id', 'appris_priority', 'end', 'start'],
    ascending=[True, True, False, True])]; a missing gene id sorts last. *)
Definition gene_compare (a b : option string) : comparison :=
  match a, b with
  | Some x, Some y => String.compare x y
  | Some _, None => Lt
  | None, Some _ => Gt
  | None, None => Eq
  end.

Definition row_le (a b : parsed_row) : bool :=
  match gene_compare (gene_id a) (gene_id b) with
  | Lt => true
  | Gt => false
  | Eq =>
      match Nat.compare (appris_priority (tag a)) (appris_priority (tag b)) with
      | Lt => true
      | Gt => false
      | Eq =>
          match Z.compare (end_ (gtf b)) (end_ (gtf a)) with
          | Lt => true
          | Gt => false
          | Eq => Z.leb (start (gtf a)) (start (gtf b))
          end
      end
  end.

Definition sort_values (rows : list parsed_row) : list parsed_row :=
  isort row_le rows.

Definition some_values (l : list (option string)) : list string :=
  flat_map (fun x => match x with Some s => [s] | None => [] end) l.

(** The first value of a group that is not missing. *)
Fixpoint first_valid (l : list (option string)) : option string :=
  match l with
  | [] => None
  | Some s :: _ => Some s
  | None :: l' => first_valid l'
  end.

(** [groupby('gene_id').first()] restricted to the columns kept: the groups
    are the gene ids present, which the sorted frame lists in ascending
    order, and [first] takes the first transcript id of a group that is not
    missing. *)
Definition groupby_first (rows : list parsed_row)
  : list (string * option string) :=
  map (fun g =>
         (g, first_valid (map transcript_id
                            (filter (fun r => opt_eqb (gene_id r) g) rows))))
      (unique (some_values (map gene_id rows))).

(** The pairs [(gene_id, primary_transcript_id)]. *)
Definition primary_transcripts (parsed : list parsed_row)
  : list (string * option string) :=
  groupby_first
    (sort_values
       (filter (fun r => String.eqb (feature (gtf r)) "transcript")
               (protein_coding_genes parsed))).

(** Merge keys: two missing keys match each other. *)
Definition key_eqb (a b : option string) : bool :=
  match a, b with
  | Some x, Some y => String.eqb x y
  | None, None => true
  | _, _ => false
  end.

(** [protein_coding_genes.merge(primary_transcripts, left_on='transcript_id',
    right_on='primary_transcript_id')]: the left rows in order, each with the
    gene id of every primary transcript it matches. *)
Definition principal_transcripts_data (parsed : list parsed_row)
  : list (parsed_row * string) :=
  flat_map (fun l =>
              map (fun p => (l, fst p))
                  (filter (fun p => key_eqb (transcript_id l) (snd p))
                          (primary_transcripts parsed)))
           (protein_coding_genes parsed).

Definition exon_rows (parsed : list parsed_row) (t : string) : list parsed_row :=
  filter (fun r => String.eqb (feature (gtf r)) "exon" && opt_eqb (transcript_id r) t)
         parsed.

(** [groupby('transcript_id').agg(...)] over the exon records: per
    transcript, its exon starts and its exon ends, each sorted and joined. *)
Definition exon_sites (parsed : list parsed_row) : list (string * string * string) :=
  map (fun t =>
         (t,
          Py.join "," (map Py.str_int (sorted (map (fun r => start (gtf r))
                                                  (exon_rows parsed t)))),
          Py.join "," (map Py.str_int (sorted (map (fun r => end_ (gtf r))
                                                  (exon_rows parsed t))))))
      (isort String.leb
         (unique (some_values
                    (map transcript_id
                         (filter (fun r => String.eqb (feature (gtf r)) "exon")
                                 parsed))))).

(** A row of [principal_transcripts_with_exons]. *)
Record exon_annotated : Type := mkAnnotated {
  left_row : parsed_row;
  gene_id_y : string;
  exon_start_sites : string;
  exon_end_sites : string
}.

Definition principal_transcripts_with_exons (parsed : list parsed_row)
  : list exon_annotated :=
  filter (fun r => String.eqb (feature (gtf (left_row r))) "transcript")
    (flat_map (fun l =>
                 map (fun e => mkAnnotated (fst l) (snd l) (snd (fst e)) (snd e))
                     (filter (fun e => opt_eqb (transcript_id (fst l)) (fst (fst e)))
                             (exon_sites parsed)))
              (principal_transcripts_data parsed)).

Definition principal_transcripts_with_exons_filtered (parsed : list parsed_row)
  : list exon_annotated :=
  map (fun r =>
         mkAnnotated (left_row r) (gene_id_y r)
           (Py.join "," (tl (Py.split "," (exon_start_sites r))) ++ ",")%string
           (Py.join "," (removelast (Py.split "," (exon_end_sites r))) ++ ",")%string)
      (filter (fun r => (1 <=? Py.count "," (exon_start_sites r))%nat)
              (principal_transcripts_with_exons parsed)).

(** A row of the paralog table: [Gene stable ID version] and
    [Human paralogue gene stable ID]. *)
Definition paralog_row : Type := (option string * option string)%type.

Definition paralog_data_filtered (paralog_data : list paralog_row) : list paralog_row :=
  filter (fun p => match snd p with Some _ => true | None => false end) paralog_data.

(** A row of the splice table that is written. *)
Record final_row : Type := mkFinal {
  f_transcript_id : option string;
  paralog_status : Z;
  f_seqname : string;
  f_strand : string;
  f_start : Z;
  f_end : Z;
  f_exon_end_sites : string;
  f_exon_start_sites : string
}.

Definition final_df_ordered (gtf_data : list gtf_row) (paralog_data : list paralog_row)
  : list final_row :=
  map (fun r =>
         let g := gtf (left_row r) in
         mkFinal (transcript_id (left_row r))
                 (if existsb (fun p => key_eqb (gene_id (left_row r)) (fst p))
                             (paralog_data_filtered paralog_data)
                  then 1 else 0)
                 (seqname g) (strand g) (start g) (end_ g)
                 (exon_end_sites r) (exon_start_sites r))
      (principal_transcripts_with_exons_filtered (gtf_data_parsed gtf_data)).

End MakeSpliceTable.

(** ** Notions the statements use *)

(** [Selects P l m]: [m] is the subsequence of [l] made of the elements of
    [l] that satisfy [P], in the order [l] has them. *)
Inductive Selects {A : Type} (P : A -> Prop) : list A -> list A -> Prop :=
| Selects_nil : Selects P [] []
| Selects_take (x : A) (l m : list A) :
    P x -> Selects P l m -> Selects P (x :: l) (x :: m)
| Selects_skip (x : A) (l m : list A) :
    ~ P x -> Selects P l m -> Selects P (x :: l) m.

(** The row an assembler writes for a transcript whose matches are [m]. *)
Definition annotated (r : row) (m : list observation) : out_row :=
  mkOut r (positions_of m) (psi_values_of m).

(** The matches of a row, for a row whose comparisons do not raise. *)
Definition join_of (df : list observation) (r : row) : list observation :=
  match matching_rows r df with
  | Some m => m
  | None => []
  end.

Definition annotate_with (df : list observation) (r : row) : out_row :=
  annotated r (join_of df r).

Definition has_match (df : list observation) (r : row) : bool :=
  match join_of df r with
  | [] => false
  | _ :: _ => true
  end.

Definition numeric_span (r : row) : Prop :=
  is_text (col 4 r) = false /\ is_text (col 5 r) = false.

(** [rows] is [table] annotated and stripped of the rows without a match:
    the rows with a match are all written, in table order, and no row
    without one is. *)
Definition emits_matched (df : list observation) (table : list row)
  (rows : list out_row) : Prop :=
  rows = map (annotate_with df) (filter (has_match df) table)
  /\ forall r, In r table ->
       (positions (annotate_with df r) = "," <-> join_of df r = [])
       /\ (PSI (annotate_with df r) = "," <-> join_of df r = [])
       /\ (join_of df r = [] -> ~ In (annotate_with df r) rows)
       /\ (join_of df r <> [] -> In (annotate_with df r) rows).


(** The key of a written row, the introns that contribute to a key (those
    of the cluster whose boundary of that type lies at that position), and a
    sum taken from the left, as the loop takes it. *)
Definition key_of (r : LeafcutterPsi.summed_row) : LeafcutterPsi.dkey :=
  (LeafcutterPsi.s_cluster_id r, LeafcutterPsi.s_position r, LeafcutterPsi.s_type r).

Definition contributes (k : LeafcutterPsi.dkey) (r : LeafcutterPsi.decoded_row)
  : bool :=
  LeafcutterPsi.key_eqb k
    (LeafcutterPsi.cluster_id r, LeafcutterPsi.exon_start r, "exon_start")
  || LeafcutterPsi.key_eqb k
       (LeafcutterPsi.cluster_id r, LeafcutterPsi.exon_end r, "exon_end").

Definition sum_from_left (xs : list float) : float :=
  fold_left PrimFloat.add xs PrimFloat.zero.

(** The accumulated PSI of a key, 0 for a key not yet there. *)
Definition psi_at (k : LeafcutterPsi.dkey) (d : LeafcutterPsi.dict) : float :=
  match LeafcutterPsi.dict_get k d with
  | Some a => LeafcutterPsi.acc_psi a
  | None => PrimFloat.zero
  end.

(** Comparisons that decide a total preorder, and their lexicographic
    product. *)
Record order_compare {A : Type} (c : A -> A -> comparison) : Prop := {
  oc_refl : forall a, c a a = Eq;
  oc_sym : forall a b, c b a = CompOpp (c a b);
  oc_trans : forall a b d, c a b = Lt -> c b d = Lt -> c a d = Lt;
  oc_eq : forall a b, c a b = Eq -> forall x, c a x = c b x
}.

Definition lex {A : Type} (c1 c2 : A -> A -> comparison) (a b : A) : comparison :=
  match c1 a b with
  | Eq => c2 a b
  | r => r
  end.

(** The four keys of [sort_values], as one comparison. *)
Definition row_compare : MakeSpliceTable.parsed_row ->
                         MakeSpliceTable.parsed_row -> comparison :=
  lex (fun a b => MakeSpliceTable.gene_compare (MakeSpliceTable.gene_id a)
                                               (MakeSpliceTable.gene_id b))
    (lex (fun a b => Nat.compare
                       (MakeSpliceTable.appris_priority (MakeSpliceTable.tag a))
                       (MakeSpliceTable.appris_priority (MakeSpliceTable.tag b)))
       (lex (fun a b => Z.compare (MakeSpliceTable.end_ (MakeSpliceTable.gtf b))
                                  (MakeSpliceTable.end_ (MakeSpliceTable.gtf a)))
            (fun a b => Z.compare (MakeSpliceTable.start (MakeSpliceTable.gtf a))
                                  (MakeSpliceTable.start (MakeSpliceTable.gtf b))))).

(** [a] ranks no later than [b] among the transcripts of a gene: a smaller
    APPRIS priority, or the same and a larger end, or the same again and a
    start that is not larger. *)
Definition ranks_before (a b : MakeSpliceTable.parsed_row) : Prop :=
  let pa := MakeSpliceTable.appris_priority (MakeSpliceTable.tag a) in
  let pb := MakeSpliceTable.appris_priority (MakeSpliceTable.tag b) in
  let ea := MakeSpliceTable.end_ (MakeSpliceTable.gtf a) in
  let eb := MakeSpliceTable.end_ (MakeSpliceTable.gtf b) in
  let sa := MakeSpliceTable.start (MakeSpliceTable.gtf a) in
  let sb := MakeSpliceTable.start (MakeSpliceTable.gtf b) in
  (pa < pb)%nat \/ (pa = pb /\ (eb < ea \/ (ea = eb /\ sa <= sb))).


(** The transcript records of the protein-coding genes. *)
Definition coding_transcripts (gtf_data : list MakeSpliceTable.gtf_row)
  : list MakeSpliceTable.parsed_row :=
  filter (fun r => String.eqb (MakeSpliceTable.feature (MakeSpliceTable.gtf r))
                              "transcript")
         (MakeSpliceTable.protein_coding_genes
            (MakeSpliceTable.gtf_data_parsed gtf_data)).

(** ** Worked inputs *)

Module Sample.

(** The observations of the end-to-end scenario. *)
Definition observations : list observation :=
  [mkObs (Str "chr1") 150 0.2%float;
   mkObs (Str "chr1") 480 0.6%float;
   mkObs (Str "chr1") 900 0.9%float].

(** Transcripts: [T1] of the scenario, [T2] on a chromosome without
    observations, [T3] with a start that is not a number, [T4] with a wider
    span than [T1]. *)
Definition T1 : row :=
  [Str "T1"; Num 0; Str "chr1"; Str "+"; Num 100; Num 500; Str "200,"; Str "300,"].
Definition T2 : row :=
  [Str "T2"; Num 0; Str "chr2"; Str "+"; Num 100; Num 500; Str "200,"; Str "300,"].
Definition T3 : row :=
  [Str "T3"; Num 1; Str "chr1"; Str "-"; Str "n/a"; Num 1000; Str "200,"; Str "300,"].

Definition T4 : row :=
  [Str "T4"; Num 0; Str "chr1"; Str "+"; Num 50; Num 600; Str "200,"; Str "300,"].

(** The same observations as rows of the splice-efficiency table. *)
Definition spliser_output : list SpliserTable.spliser_row :=
  [SpliserTable.mkSpliser (Str "chr1") 150 (Str "+") (Str "G") [0.2%float] [] [];
   SpliserTable.mkSpliser (Str "chr1") 480 (Str "+") (Str "G")
     [0.6%float; PrimFloat.nan] [] [];
   SpliserTable.mkSpliser (Str "chr1") 900 (Str "+") (Str "G") [0.9%float] [] [];
   SpliserTable.mkSpliser (Str "chr1") 300 (Str "+") (Str "G") [PrimFloat.nan] [] []].

(** Two introns of one cluster ending at the same position, and a third
    with no replicate value. *)
Definition intron_a : LeafcutterPsi.intron_row :=
  LeafcutterPsi.mkIntron "chr1:100:500:clu_1_+" [0.3%float].
Definition intron_b : LeafcutterPsi.intron_row :=
  LeafcutterPsi.mkIntron "chr1:200:500:clu_1_+" [0.4%float; PrimFloat.nan].
Definition intron_c : LeafcutterPsi.intron_row :=
  LeafcutterPsi.mkIntron "chr1:300:500:clu_1_+" [PrimFloat.nan; PrimFloat.nan].



(** A gene with three transcripts: [T1] has three exons and no APPRIS tag,
    [T2] two exons and the tag of priority 2, [T3] one exon and the tag of
    priority 1 after another tag. *)
Definition attr (k v : string) : string :=
  (k ++ " " ++ MakeSpliceTable.quote ++ v ++ MakeSpliceTable.quote ++ "; ")%string.

Definition of_gene : string :=
  (attr "gene_id" "G1.1" ++ attr "gene_type" "protein_coding"
   ++ attr "gene_name" "AAA")%string.

Definition of_transcript (id : string) (tags : list string) : string :=
  (attr "gene_id" "G1.1" ++ attr "transcript_id" id
   ++ attr "gene_type" "protein_coding" ++ attr "gene_name" "AAA"
   ++ String.concat "" (map (attr "tag") tags))%string.

Definition record (feature : string) (s e : Z) (attributes : string)
  : MakeSpliceTable.gtf_row :=
  MakeSpliceTable.mkGtf "chr1" "HAVANA" feature s e "." "+" "." attributes.

Definition gtf_data : list MakeSpliceTable.gtf_row :=
  [record "gene" 100 990 of_gene;
   record "transcript" 100 900 (of_transcript "T1" ["basic"]);
   record "exon" 100 200 (of_transcript "T1" ["basic"]);
   record "exon" 500 600 (of_transcript "T1" ["basic"]);
   record "exon" 300 400 (of_transcript "T1" ["basic"]);
   record "transcript" 100 950 (of_transcript "T2" ["appris_principal_2"]);
   record "exon" 700 950 (of_transcript "T2" ["appris_principal_2"]);
   record "exon" 100 200 (of_transcript "T2" ["appris_principal_2"]);
   record "transcript" 100 990 (of_transcript "T3" ["basic"; "appris_principal_1"]);
   record "exon" 100 990 (of_transcript "T3" ["basic"; "appris_principal_1"])].

Definition splice_row : MakeSpliceTable.final_row :=
  MakeSpliceTable.mkFinal (Some "T2") 0 "chr1" "+" 100 950 "200," "700,".

End Sample.

(** ** Further notions

    The row of [extract_splice_sites] for an event, the number of rows an
    event type gives per event, and the replicate tokens [float] rejects. *)





(** What a row of the accumulator records besides the sum, and what an intron
    would record. *)
Definition metadata (a : LeafcutterPsi.accumulator) : string * string * string :=
  (LeafcutterPsi.acc_intron_info a, LeafcutterPsi.acc_chromosome a,
   LeafcutterPsi.acc_strand a).

Definition row_metadata (r : LeafcutterPsi.decoded_row) : string * string * string :=
  (LeafcutterPsi.d_intron_info r, LeafcutterPsi.d_chromosome r,
   LeafcutterPsi.strand r).

Definition meta_at (k : LeafcutterPsi.dkey) (d : LeafcutterPsi.dict)
  : option (string * string * string) :=
  option_map metadata (LeafcutterPsi.dict_get k d).

(** *** The attribute column of the annotation

    The last column of a record lists its attributes: a key, a space, the
    value, quoted or not, and a semicolon, with a space between two
    attributes. *)
Definition dquote : ascii := ascii_of_nat 34.

Record attribute : Type := mkAttribute {
  a_key : string;
  a_value : string;
  a_quoted : bool
}.

Definition attribute_text (a : attribute) : string :=
  (a_key a ++ " "
   ++ (if a_quoted a
       then MakeSpliceTable.quote ++ a_value a ++ MakeSpliceTable.quote
       else a_value a)
   ++ ";")%string.

Definition attributes_text (l : list attribute) : string :=
  Py.join " " (map attribute_text l).





(** The text before the group in the pattern of [extract_attribute]. *)
Definition pattern (name : string) : string :=
  (name ++ String " " (String dquote ""))%string.


(** What follows a field: nothing, or a space and the next fields. *)
Definition rest (l : list attribute) : string :=
  match l with
  | [] => ""
  | _ :: _ => String " " (attributes_text l)
  end.


(** The two keys an intron adds to, in the order the loop visits them, the
    distinct keys of a list in the order of their first occurrence, and a key
    set at the end of a list unless it is there. *)
Definition keys_of_row (r : LeafcutterPsi.decoded_row) : list LeafcutterPsi.dkey :=
  [(LeafcutterPsi.cluster_id r, LeafcutterPsi.exon_start r, "exon_start");
   (LeafcutterPsi.cluster_id r, LeafcutterPsi.exon_end r, "exon_end")].

Fixpoint first_occurrences (l : list LeafcutterPsi.dkey) : list LeafcutterPsi.dkey :=
  match l with
  | [] => []
  | k :: l' =>
      k :: filter (fun k' => negb (LeafcutterPsi.key_eqb k k')) (first_occurrences l')
  end.

Definition add_key (ks : list LeafcutterPsi.dkey) (k : LeafcutterPsi.dkey)
  : list LeafcutterPsi.dkey :=
  if existsb (LeafcutterPsi.key_eqb k) ks then ks else ks ++ [k].

(** ** Further worked inputs *)

Module Events.

Definition coords (name : string) : Z :=
  if String.eqb name "longExonStart_0base" then 1000
  else if String.eqb name "longExonEnd" then 1200
  else if String.eqb name "shortES" then 1050
  else if String.eqb name "shortEE" then 1150
  else if String.eqb name "exonStart_0base" then 2000
  else if String.eqb name "exonEnd" then 2100
  else if String.eqb name "1stExonStart_0base" then 3000
  else if String.eqb name "1stExonEnd" then 3100
  else if String.eqb name "2ndExonStart_0base" then 3200
  else if String.eqb name "2ndExonEnd" then 3300
  else if String.eqb name "riExonStart_0base" then 4000
  else if String.eqb name "riExonEnd" then 4500
  else if String.eqb name "upstreamEE" then 4100
  else if String.eqb name "downstreamES" then 4400
  else 0.

Definition broken : RmatsPsi.event_row :=
  RmatsPsi.mkEvent 3 "K" "chr2" "+" "0.25,,0.35" 0.5%float coords.

End Events.


(** Two transcripts of one gene with the same span and no APPRIS tag. *)
Module Ties.

Definition first_record : MakeSpliceTable.gtf_row :=
  Sample.record "transcript" 100 900 (Sample.of_transcript "Ta" ["basic"]).
Definition second_record : MakeSpliceTable.gtf_row :=
  Sample.record "transcript" 100 900 (Sample.of_transcript "Tb" ["basic"]).

Definition gtf_data : list MakeSpliceTable.gtf_row :=
  [first_record; second_record].

End Ties.
(** * Properties *)

(** ** Strings *)

Lemma length_append (s t : string) :
  String.length (s ++ t) = (String.length s + String.length t)%nat.
Proof.
  induction s as [|c s IH]; simpl; [reflexivity | now rewrite IH].
Qed.

Lemma count_append (c : ascii) (s t : string) :
  Py.count c (s ++ t) = (Py.count c s + Py.count c t)%nat.
Proof.
  induction s as [|a s IH]; simpl; [reflexivity | rewrite IH; lia].
Qed.

Lemma nonempty_length (s : string) : (0 < String.length s)%nat -> s <> "".
Proof.
  destruct s; simpl; [lia | discriminate].
Qed.

Lemma uint_no_comma (d : Decimal.uint) :
  Py.count "," (NilEmpty.string_of_uint d) = 0%nat.
Proof.
  induction d; simpl; auto.
Qed.

Lemma str_int_no_comma (z : Z) : Py.count "," (Py.str_int z) = 0%nat.
Proof.
  unfold Py.str_int, NilZero.string_of_int, NilZero.string_of_uint.
  destruct (Z.to_int z) as [d|d]; destruct d; simpl; auto using uint_no_comma.
Qed.

Lemma str_int_nonempty (z : Z) : Py.str_int z <> "".
Proof.
  unfold Py.str_int, NilZero.string_of_int, NilZero.string_of_uint.
  destruct (Z.to_int z) as [d|d]; destruct d; simpl; discriminate.
Qed.

Lemma format_short_nonempty (ds : string) (p : Z) : Py.format_short ds p <> "".
Proof.
  apply nonempty_length. unfold Py.format_short.
  repeat match goal with
         | |- context [if ?b then _ else _] => destruct b
         end; repeat (rewrite length_append; simpl); lia.
Qed.

Lemma str_float_nonempty (x : float) : Py.str_float x <> "".
Proof.
  unfold Py.str_float.
  destruct (Prim2SF x) as [s|s| |s m e]; try (destruct s; discriminate);
    try discriminate.
  destruct (Py.shortest (Z.pos m) e) as [c q].
  destruct (Py.strip_zeros 20 c q) as [c' q'].
  apply nonempty_length. rewrite length_append.
  pose proof (format_short_nonempty (Py.str_int c')
                (q' + Z.of_nat (String.length (Py.str_int c')))) as H.
  destruct (Py.format_short (Py.str_int c')
              (q' + Z.of_nat (String.length (Py.str_int c')))); [congruence|].
  simpl. lia.
Qed.

(** A serialised list is the bare comma exactly when the list is empty. *)
Lemma serialize_bare (l : list string) :
  (forall x, In x l -> x <> "") -> (serialize l = "," <-> l = []).
Proof.
  intros Hne. split; [|intros ->; reflexivity].
  destruct l as [|x l]; [reflexivity|]. intros H. exfalso.
  assert (Hx : x <> "") by (apply Hne; left; reflexivity).
  apply (f_equal String.length) in H. unfold serialize, Py.join in H.
  rewrite length_append in H. simpl in H.
  destruct l as [|y l]; simpl in H.
  - destruct x; [congruence | simpl in H; lia].
  - rewrite length_append in H. destruct x; [congruence | simpl in H; lia].
Qed.

Lemma positions_of_bare (m : list observation) : positions_of m = "," <-> m = [].
Proof.
  unfold positions_of. rewrite serialize_bare.
  - split; [apply map_eq_nil | intros ->; reflexivity].
  - intros x Hx. apply in_map_iff in Hx as (o & <- & _). apply str_int_nonempty.
Qed.

Lemma psi_values_of_bare (m : list observation) : psi_values_of m = "," <-> m = [].
Proof.
  unfold psi_values_of. rewrite serialize_bare.
  - split; [apply map_eq_nil | intros ->; reflexivity].
  - intros x Hx. apply in_map_iff in Hx as (o & <- & _). apply str_float_nonempty.
Qed.

(** ** The interval join *)

Open Scope list_scope.

Lemma cell_eqb_eq (a c : cell) : c <> NaN -> (cell_eqb a c = true <-> a = c).
Proof.
  intros Hc. destruct a, c; simpl; split; intros H;
    try discriminate; try congruence.
  - apply Z.eqb_eq in H. now subst.
  - inversion H. apply Z.eqb_refl.
  - apply String.eqb_eq in H. now subst.
  - inversion H. apply String.eqb_refl.
Qed.

Lemma col_set_col_same (i : nat) (c : cell) (r : row) :
  col i (set_col i c r) = if (i <? List.length r)%nat then c else NaN.
Proof.
  unfold col. revert r. induction i as [|i IH]; intros [|x r]; simpl; auto.
Qed.

Lemma col_set_col_other (i j : nat) (c : cell) (r : row) :
  i <> j -> col i (set_col j c r) = col i r.
Proof.
  unfold col. revert i r. induction j as [|j IH]; intros [|i] [|x r] Hij; simpl;
    auto; try congruence.
Qed.

Lemma col_beyond (i : nat) (r : row) : (List.length r <= i)%nat -> col i r = NaN.
Proof.
  intros H. unfold col. now apply nth_overflow.
Qed.

Lemma col_set_to_numeric (parse : string -> option Z) (i : nat) (r : row) :
  col i (set_col i (to_numeric parse (col i r)) r) = to_numeric parse (col i r).
Proof.
  rewrite col_set_col_same. destruct (Nat.ltb_spec i (List.length r)); auto.
  rewrite col_beyond by lia. reflexivity.
Qed.

Lemma to_numeric_not_text (parse : string -> option Z) (c : cell) :
  is_text (to_numeric parse c) = false.
Proof.
  destruct c; simpl; auto. destruct (parse s); reflexivity.
Qed.

Lemma matching_rows_total (r : row) (df : list observation) :
  is_text (col 4 r) = false -> is_text (col 5 r) = false ->
  exists m, matching_rows r df = Some m.
Proof.
  intros H4 H5. induction df as [|o df [m IH]]; simpl; [now exists []|].
  unfold mask. rewrite IH.
  destruct (col 4 r), (col 5 r); simpl in *; try discriminate; eauto.
Qed.


(** On a numeric span the join selects the observations of the chromosome
    whose position lies in the closed span, in table order. *)
Lemma matching_rows_selects (r : row) (df : list observation) (c : cell)
  (tx_start tx_end : Z) :
  col 2 r = c -> c <> NaN -> col 4 r = Num tx_start -> col 5 r = Num tx_end ->
  exists m,
    matching_rows r df = Some m
    /\ Selects (fun o => chromosome o = c
                         /\ tx_start <= position o <= tx_end) df m.
Proof.
  intros H2 Hc H4 H5. induction df as [|o df (m & IH & Hsel)]; simpl.
  - exists []. split; [reflexivity | constructor].
  - unfold mask. rewrite IH, H2, H4, H5. simpl.
    destruct (cell_eqb (chromosome o) c) eqn:E; simpl.
    + apply cell_eqb_eq in E; [|assumption].
      destruct (Z.leb_spec tx_start (position o)); simpl.
      * destruct (Z.leb_spec (position o) tx_end); simpl.
        -- exists (o :: m). split; [reflexivity|]. constructor; auto.
        -- exists m. split; [reflexivity|]. constructor; [lia | assumption].
      * exists m. split; [reflexivity|]. constructor; [lia | assumption].
    + exists m. split; [reflexivity|]. constructor; [|assumption].
      intros [Heq _]. apply (cell_eqb_eq _ c Hc) in Heq. congruence.
Qed.

(** What [Selects] pins down: membership, and the result as a filter. *)
Lemma Selects_In {A : Type} (P : A -> Prop) (l m : list A) :
  Selects P l m -> forall x, In x m <-> In x l /\ P x.
Proof.
  induction 1 as [|x l m Hx _ IH|x l m Hx _ IH]; intros y; simpl.
  - tauto.
  - rewrite IH. split; [intros [->|[? ?]]; auto | intros [[->|?] ?]; auto].
  - rewrite IH. split; [intros [? ?]; auto | intros [[->|?] ?]; tauto].
Qed.

Lemma Selects_unique {A : Type} (P : A -> Prop) (l m m' : list A) :
  Selects P l m -> Selects P l m' -> m = m'.
Proof.
  intros H. revert m'. induction H; intros m' H'; inversion H'; subst;
    try reflexivity; try contradiction; auto.
  f_equal. auto.
Qed.

(** ** The worker pool *)

Lemma store_length {A : Type} (i : nat) (x : A) (l : list A) :
  List.length (store i x l) = List.length l.
Proof.
  revert i. induction l as [|y l IH]; intros [|i]; simpl; auto.
Qed.

Lemma nth_store_same {A : Type} (i : nat) (x d : A) (l : list A) :
  (i < List.length l)%nat -> nth i (store i x l) d = x.
Proof.
  revert i. induction l as [|y l IH]; intros [|i] H; simpl in *; try lia; auto.
  apply IH. lia.
Qed.

Lemma nth_store_other {A : Type} (i j : nat) (x d : A) (l : list A) :
  i <> j -> nth i (store j x l) d = nth i l d.
Proof.
  revert i j. induction l as [|y l IH]; intros [|i] [|j] H; simpl; auto;
    try congruence.
Qed.

Lemma store_middle {A : Type} (pre post : list A) (x y : A) :
  store (List.length pre) y (pre ++ x :: post) = pre ++ y :: post.
Proof.
  induction pre as [|z pre IH]; simpl; [reflexivity | now rewrite IH].
Qed.

Lemma nth_error_middle {A : Type} (pre post : list A) (x : A) :
  nth_error (pre ++ x :: post) (List.length pre) = Some x.
Proof.
  induction pre as [|z pre IH]; simpl; auto.
Qed.

(** Every task of an admissible schedule finishes. *)
Lemma admissible_covers (k : nat) (sched todo : list nat) :
  Pool.admissible k todo sched = true -> forall i, In i todo -> In i sched.
Proof.
  revert todo. induction sched as [|j sched IH]; intros todo H i Hi; simpl in H.
  - destruct todo; [contradiction | discriminate].
  - apply andb_true_iff in H as [_ H].
    destruct (Nat.eq_dec j i) as [->|Hne]; [now left | right].
    apply (IH _ H). apply in_in_remove; auto.
Qed.

Lemma complete_length {R : Type} (tasks : list R) (sched : list nat)
  (futures : list (option R)) :
  List.length (Pool.complete tasks sched futures) = List.length futures.
Proof.
  revert futures. induction sched as [|j sched IH]; intros futures; simpl; auto.
  rewrite IH. destruct (nth_error tasks j); auto using store_length.
Qed.

(** A future holds the result of its task once the task has finished, and
    keeps it. *)
Lemma complete_slot {R : Type} (tasks : list R) (sched : list nat) :
  forall (futures : list (option R)) (i : nat) (t : R),
    List.length futures = List.length tasks ->
    nth_error tasks i = Some t ->
    In i sched \/ nth i futures None = Some t ->
    nth i (Pool.complete tasks sched futures) None = Some t.
Proof.
  induction sched as [|j sched IH]; intros futures i t Hlen Ht H; simpl.
  - destruct H as [[]|H]; exact H.
  - assert (Hi : (i < List.length futures)%nat).
    { rewrite Hlen. apply nth_error_Some. congruence. }
    destruct (nth_error tasks j) as [tj|] eqn:Hj.
    + apply IH; auto; [now rewrite store_length|].
      destruct (Nat.eq_dec i j) as [->|Hne].
      * right. rewrite nth_store_same by assumption. congruence.
      * destruct H as [[E|H]|H]; [congruence | now left | right].
        now rewrite nth_store_other.
    + apply IH; auto. destruct H as [[E|H]|H]; auto. subst j. congruence.
Qed.

(** Whatever admissible order the tasks finish in, each future ends up
    holding the result of its own task. *)
Lemma run_result {R : Type} (tasks : list R) (k : nat) (sched : list nat)
  (i : nat) (t : R) :
  Pool.admissible k (seq 0 (List.length tasks)) sched = true ->
  nth_error tasks i = Some t ->
  Pool.result (Pool.run tasks sched) i = Some t.
Proof.
  intros Hs Ht. unfold Pool.result, Pool.run. apply complete_slot; auto.
  - apply repeat_length.
  - left. apply (admissible_covers _ _ _ Hs). apply in_seq.
    assert (i < List.length tasks)%nat by (apply nth_error_Some; congruence). lia.
Qed.

(** The tasks may always finish in the order they were submitted. *)
Lemma admissible_in_order (k : nat) (todo : list nat) :
  NoDup todo -> Pool.admissible (S k) todo todo = true.
Proof.
  induction 1 as [|i todo Hi Hnd IH]; simpl; [reflexivity|].
  rewrite Nat.eqb_refl. simpl.
  destruct (Nat.eq_dec i i) as [_|]; [|congruence].
  now rewrite notin_remove.
Qed.

(** ** The assemblers, whatever the schedule *)

Lemma nth_error_combine_seq {A : Type} (l : list A) :
  forall (k i : nat) (x : A),
    nth_error l i = Some x ->
    nth_error (combine (seq k (List.length l)) l) i = Some ((k + i)%nat, x).
Proof.
  induction l as [|y l IH]; intros k [|i] x H; simpl in *; try discriminate.
  - inversion H. now rewrite Nat.add_0_r.
  - rewrite (IH (S k) i x H). f_equal. f_equal. lia.
Qed.

Lemma numeric_span_total (df : list observation) (r : row) :
  numeric_span r -> matching_rows r df = Some (join_of df r).
Proof.
  intros [H4 H5]. unfold join_of.
  destruct (matching_rows_total r df H4 H5) as [m ->]. reflexivity.
Qed.

Lemma coerce_numeric_span (parse : string -> option Z) (r : row) :
  numeric_span (LeafcutterTable.coerce parse r).
Proof.
  unfold numeric_span, LeafcutterTable.coerce. split.
  - rewrite col_set_col_other by lia. rewrite col_set_to_numeric.
    apply to_numeric_not_text.
  - rewrite col_set_to_numeric. apply to_numeric_not_text.
Qed.

Lemma coerce_col4 (parse : string -> option Z) (r : row) :
  col 4 (LeafcutterTable.coerce parse r) = to_numeric parse (col 4 r).
Proof.
  unfold LeafcutterTable.coerce.
  rewrite col_set_col_other by lia. apply col_set_to_numeric.
Qed.

Lemma coerce_col5 (parse : string -> option Z) (r : row) :
  col 5 (LeafcutterTable.coerce parse r) = to_numeric parse (col 5 r).
Proof.
  unfold LeafcutterTable.coerce.
  rewrite col_set_to_numeric. now rewrite col_set_col_other by lia.
Qed.

Lemma coerce_col_other (parse : string -> option Z) (r : row) (i : nat) :
  i <> 4%nat -> i <> 5%nat -> col i (LeafcutterTable.coerce parse r) = col i r.
Proof.
  intros. unfold LeafcutterTable.coerce.
  now rewrite !col_set_col_other by assumption.
Qed.

Lemma rmats_coerce_same (parse : string -> option Z) (r : row) :
  RmatsTable.coerce parse r = LeafcutterTable.coerce parse r.
Proof. reflexivity. Qed.

Lemma leafcutter_collect (df : list observation)
  (futures : list (option (option (nat * string * string)))) :
  forall (post pre : list out_row),
    (forall i r, nth_error post i = Some r ->
       Pool.result futures (List.length pre + i)
       = Some (LeafcutterTable.process_row (List.length pre + i) (cells r) df)) ->
    (forall r, In r post -> numeric_span (cells r)) ->
    LeafcutterTable.collect futures (seq (List.length pre) (List.length post))
      (pre ++ post)
    = Some (pre ++ map (fun r => annotate_with df (cells r)) post).
Proof.
  induction post as [|r post IH]; intros pre Hres Hnum; simpl.
  - reflexivity.
  - specialize (Hres 0%nat r eq_refl) as H0. rewrite Nat.add_0_r in H0.
    rewrite H0. unfold LeafcutterTable.process_row.
    rewrite (numeric_span_total df (cells r)) by (apply Hnum; now left).
    rewrite nth_error_middle, store_middle.
    specialize (IH (pre ++ [annotated (cells r) (join_of df (cells r))])).
    rewrite length_app in IH. simpl in IH. rewrite Nat.add_1_r in IH.
    rewrite <- !app_assoc in IH. simpl in IH. apply IH.
    + intros i r' Hi. replace (S (List.length pre + i))%nat
        with (List.length pre + S i)%nat by lia. now apply Hres.
    + intros r' Hr'. apply Hnum. now right.
Qed.

(** The LeafCutter assembler writes the rows that have a match, annotated,
    in table order: for every admissible schedule. *)
Lemma leafcutter_emitted (parse : string -> option Z) (df : list observation)
  (file : list row) (n : nat) (sched : list nat) :
  file <> [] ->
  Pool.admissible (S n) (seq 0 (List.length file)) sched = true ->
  LeafcutterTable.emitted_rows parse df file (S n) sched
  = Some (filter LeafcutterTable.keep
            (map (fun r => annotate_with df (LeafcutterTable.coerce parse r)) file)).
Proof.
  intros Hne Hs. unfold LeafcutterTable.emitted_rows, read_csv.
  destruct file as [|l rest] eqn:Hfile; [congruence|]. rewrite <- Hfile in *.
  clear Hfile Hne l rest.
  set (table := map (fun r => mkOut (LeafcutterTable.coerce parse r) "" "") file).
  set (tasks := map _ (combine _ table)).
  assert (Hlen : List.length table = List.length file) by apply length_map.
  assert (Htasks : List.length tasks = List.length file).
  { unfold tasks. rewrite length_map, length_combine, length_seq. lia. }
  pose proof (leafcutter_collect df (Pool.run tasks sched) table []) as Hc.
  simpl in Hc. rewrite Hc.
  - f_equal. f_equal. unfold table. rewrite map_map. reflexivity.
  - intros i r Hi. apply (run_result tasks (S n)).
    + now rewrite Htasks.
    + unfold tasks. rewrite nth_error_map.
      rewrite (nth_error_combine_seq table 0 i r Hi). reflexivity.
  - intros r Hr. unfold table in Hr. apply in_map_iff in Hr as (x & <- & _).
    apply coerce_numeric_span.
Qed.

Lemma rmats_annotate (df : list observation) :
  forall (post pre : list out_row),
    (forall r, In r post -> numeric_span (cells r)) ->
    RmatsTable.annotate df (combine (seq (List.length pre) (List.length post)) post)
      (pre ++ post)
    = Some (pre ++ map (fun r => annotate_with df (cells r)) post).
Proof.
  induction post as [|r post IH]; intros pre Hnum; simpl.
  - reflexivity.
  - rewrite (numeric_span_total df (cells r)) by (apply Hnum; now left).
    rewrite nth_error_middle, store_middle.
    specialize (IH (pre ++ [annotated (cells r) (join_of df (cells r))])).
    rewrite length_app in IH. simpl in IH. rewrite Nat.add_1_r in IH.
    rewrite <- !app_assoc in IH. simpl in IH. apply IH.
    intros r' Hr'. apply Hnum. now right.
Qed.

(** The rMATS assembler writes the same rows, one after the other. *)
Lemma rmats_emitted (parse : string -> option Z) (df : list observation)
  (file : list row) :
  file <> [] ->
  RmatsTable.emitted_rows parse df file
  = Some (filter RmatsTable.keep
            (map (fun r => annotate_with df (RmatsTable.coerce parse r)) file)).
Proof.
  intros Hne. unfold RmatsTable.emitted_rows, read_csv.
  destruct file as [|l rest] eqn:Hfile; [congruence|]. rewrite <- Hfile in *.
  clear Hfile Hne l rest.
  set (table := map (fun r => mkOut (RmatsTable.coerce parse r) "" "") file).
  pose proof (rmats_annotate df table []) as Hc. simpl in Hc. rewrite Hc.
  - f_equal. f_equal. unfold table. rewrite map_map. reflexivity.
  - intros r Hr. unfold table in Hr. apply in_map_iff in Hr as (x & <- & _).
    rewrite rmats_coerce_same. apply coerce_numeric_span.
Qed.

Lemma spliser_collect (df : list SpliserTable.mean_row)
  (futures : list (option (option (string * string)))) :
  forall (post pre : list out_row),
    (forall i r, nth_error post i = Some r ->
       Pool.result futures (List.length pre + i)
       = Some (SpliserTable.process_row (cells r) df)) ->
    (forall r, In r post -> numeric_span (cells r)) ->
    SpliserTable.collect futures (seq (List.length pre) (List.length post))
      (pre ++ post)
    = Some (pre ++ map (fun r => annotate_with
                                   (map SpliserTable.as_observation df) (cells r))
                       post).
Proof.
  induction post as [|r post IH]; intros pre Hres Hnum; simpl.
  - reflexivity.
  - specialize (Hres 0%nat r eq_refl) as H0. rewrite Nat.add_0_r in H0.
    rewrite H0. unfold SpliserTable.process_row.
    rewrite (numeric_span_total _ (cells r)) by (apply Hnum; now left).
    rewrite nth_error_middle, store_middle.
    specialize (IH (pre ++ [annotated (cells r)
                              (join_of (map SpliserTable.as_observation df)
                                       (cells r))])).
    rewrite length_app in IH. simpl in IH. rewrite Nat.add_1_r in IH.
    rewrite <- !app_assoc in IH. simpl in IH. apply IH.
    + intros i r' Hi. replace (S (List.length pre + i))%nat
        with (List.length pre + S i)%nat by lia. now apply Hres.
    + intros r' Hr'. apply Hnum. now right.
Qed.

(** The splice-efficiency assembler, on a table whose coordinates were read
    as numbers: the first record of the file is the header, the others are
    annotated and written when they have a match. *)
Lemma spliser_emitted (spliser_output : list SpliserTable.spliser_row)
  (header : row) (records : list row) (n : nat) (sched : list nat) :
  (forall r, In r records -> numeric_span r) ->
  Pool.admissible (S n) (seq 0 (List.length records)) sched = true ->
  SpliserTable.emitted_rows spliser_output (header :: records) (S n) sched
  = Some (filter SpliserTable.keep
            (map (annotate_with
                    (map SpliserTable.as_observation
                         (SpliserTable.mean_sse_df_clean spliser_output)))
                 records)).
Proof.
  intros Hnum Hs. unfold SpliserTable.emitted_rows, read_csv.
  set (clean := SpliserTable.mean_sse_df_clean spliser_output).
  set (table := map (fun r => mkOut r "" "") records).
  set (tasks := map _ table).
  assert (Hlen : List.length table = List.length records) by apply length_map.
  assert (Htasks : List.length tasks = List.length records).
  { unfold tasks. now rewrite length_map. }
  pose proof (spliser_collect clean (Pool.run tasks sched) table []) as Hc.
  simpl in Hc. rewrite Hc.
  - f_equal. f_equal. unfold table. rewrite map_map. reflexivity.
  - intros i r Hi. apply (run_result tasks (S n)).
    + now rewrite Htasks.
    + unfold tasks. rewrite nth_error_map, Hi. reflexivity.
  - intros r Hr. unfold table in Hr. apply in_map_iff in Hr as (x & <- & Hx).
    now apply Hnum.
Qed.

(** Both filters keep a row exactly when it has a match. *)
Lemma bare_eqb_positions (m : list observation) :
  String.eqb (positions_of m) "," = match m with [] => true | _ => false end.
Proof.
  destruct (String.eqb_spec (positions_of m) ",") as [H|H].
  - apply positions_of_bare in H. now subst.
  - destruct m; [|reflexivity]. exfalso. apply H. reflexivity.
Qed.

Lemma bare_eqb_psi (m : list observation) :
  String.eqb (psi_values_of m) "," = match m with [] => true | _ => false end.
Proof.
  destruct (String.eqb_spec (psi_values_of m) ",") as [H|H].
  - apply psi_values_of_bare in H. now subst.
  - destruct m; [|reflexivity]. exfalso. apply H. reflexivity.
Qed.

Lemma leafcutter_keep (df : list observation) (r : row) :
  LeafcutterTable.keep (annotate_with df r) = has_match df r.
Proof.
  unfold LeafcutterTable.keep, annotate_with, annotated, has_match. simpl.
  rewrite bare_eqb_positions, bare_eqb_psi. now destruct (join_of df r).
Qed.

Lemma rmats_keep (df : list observation) (r : row) :
  RmatsTable.keep (annotate_with df r) = has_match df r.
Proof. apply leafcutter_keep. Qed.

Lemma spliser_keep (df : list observation) (r : row) :
  SpliserTable.keep (annotate_with df r) = has_match df r.
Proof.
  unfold SpliserTable.keep, annotate_with, annotated, has_match. simpl.
  rewrite bare_eqb_positions, bare_eqb_psi. now destruct (join_of df r).
Qed.

Lemma filter_map_swap {A B : Type} (f : A -> B) (p : B -> bool) (l : list A) :
  filter p (map f l) = map f (filter (fun x => p (f x)) l).
Proof.
  induction l as [|x l IH]; simpl; [reflexivity|].
  destruct (p (f x)); simpl; now rewrite IH.
Qed.

Lemma emits_matched_intro (df : list observation) (table : list row) :
  emits_matched df table (map (annotate_with df) (filter (has_match df) table)).
Proof.
  split; [reflexivity|]. intros r Hr.
  assert (Hinj : forall a b, annotate_with df a = annotate_with df b -> a = b).
  { intros a b H. now inversion H. }
  split; [apply positions_of_bare|].
  split; [apply psi_values_of_bare|].
  split.
  - intros H Hin. apply in_map_iff in Hin as (x & Hx & Hin).
    apply Hinj in Hx. subst x. apply filter_In in Hin as [_ Hm].
    unfold has_match in Hm. now rewrite H in Hm.
  - intros H. apply in_map. apply filter_In. split; [assumption|].
    unfold has_match. now destruct (join_of df r).
Qed.

Lemma leafcutter_emitted_matched (parse : string -> option Z)
  (df : list observation) (file : list row) (n : nat) (sched : list nat) :
  file <> [] ->
  Pool.admissible (S n) (seq 0 (List.length file)) sched = true ->
  LeafcutterTable.emitted_rows parse df file (S n) sched
  = Some (map (annotate_with df)
              (filter (has_match df) (map (LeafcutterTable.coerce parse) file))).
Proof.
  intros Hne Hs. rewrite leafcutter_emitted by assumption. f_equal.
  rewrite <- (map_map (LeafcutterTable.coerce parse) (annotate_with df)).
  rewrite filter_map_swap.
  now rewrite (filter_ext _ (has_match df) (leafcutter_keep df)).
Qed.

Lemma rmats_emitted_matched (parse : string -> option Z)
  (df : list observation) (file : list row) :
  file <> [] ->
  RmatsTable.emitted_rows parse df file
  = Some (map (annotate_with df)
              (filter (has_match df) (map (RmatsTable.coerce parse) file))).
Proof.
  intros Hne. rewrite rmats_emitted by assumption. f_equal.
  rewrite <- (map_map (RmatsTable.coerce parse) (annotate_with df)).
  rewrite filter_map_swap.
  now rewrite (filter_ext _ (has_match df) (rmats_keep df)).
Qed.

Lemma spliser_emitted_matched (spliser_output : list SpliserTable.spliser_row)
  (header : row) (records : list row) (n : nat) (sched : list nat) :
  (forall r, In r records -> numeric_span r) ->
  Pool.admissible (S n) (seq 0 (List.length records)) sched = true ->
  SpliserTable.emitted_rows spliser_output (header :: records) (S n) sched
  = Some (map (annotate_with
                 (map SpliserTable.as_observation
                      (SpliserTable.mean_sse_df_clean spliser_output)))
              (filter (has_match
                         (map SpliserTable.as_observation
                              (SpliserTable.mean_sse_df_clean spliser_output)))
                      records)).
Proof.
  intros Hnum Hs. rewrite spliser_emitted by assumption. f_equal.
  rewrite filter_map_swap.
  now rewrite (filter_ext _ (has_match _) (spliser_keep _)).
Qed.




Lemma map_cells_store (table : list out_row) (i : nat) (r : out_row)
  (p v : string) :
  nth_error table i = Some r ->
  map cells (store i (mkOut (cells r) p v) table) = map cells table.
Proof.
  revert i. induction table as [|x table IH]; intros [|i] H; simpl in *;
    try discriminate.
  - inversion H. reflexivity.
  - now rewrite IH.
Qed.

Lemma spliser_collect_cells (futures : list (option (option (string * string))))
  (order : list nat) :
  forall table table',
    SpliserTable.collect futures order table = Some table' ->
    map cells table' = map cells table.
Proof.
  induction order as [|i order IH]; intros table table' H; simpl in H.
  - now inversion H.
  - destruct (Pool.result futures i) as [[[p v]|]|]; try discriminate.
    destruct (nth_error table i) as [r|] eqn:Hr; try discriminate.
    rewrite (IH _ _ H). now apply map_cells_store.
Qed.

(** The loops over the futures read nothing but the results. *)
Lemma spliser_collect_ext
  (f1 f2 : list (option (option (string * string)))) (order : list nat) :
  (forall i, In i order -> Pool.result f1 i = Pool.result f2 i) ->
  forall table, SpliserTable.collect f1 order table
                = SpliserTable.collect f2 order table.
Proof.
  induction order as [|i order IH]; intros H table; simpl; [reflexivity|].
  rewrite (H i) by now left.
  destruct (Pool.result f2 i) as [[[p v]|]|]; auto.
  destruct (nth_error table i); auto. apply IH. intros j Hj. apply H. now right.
Qed.

Lemma spliser_schedule_free (spliser_output : list SpliserTable.spliser_row)
  (file : list row) (n1 n2 : nat) (s1 s2 : list nat) :
  Pool.admissible (S n1) (seq 0 (List.length (tl file))) s1 = true ->
  Pool.admissible (S n2) (seq 0 (List.length (tl file))) s2 = true ->
  SpliserTable.emitted_rows spliser_output file (S n1) s1
  = SpliserTable.emitted_rows spliser_output file (S n2) s2.
Proof.
  intros H1 H2. unfold SpliserTable.emitted_rows, read_csv.
  destruct file as [|header records]; [reflexivity|]. simpl in H1, H2.
  set (table := map (fun r => mkOut r "" "") records).
  set (tasks := map _ table).
  assert (Htasks : List.length tasks = List.length records).
  { unfold tasks, table. now rewrite !length_map. }
  rewrite (spliser_collect_ext (Pool.run tasks s1) (Pool.run tasks s2));
    [reflexivity|].
  intros i Hi. apply in_seq in Hi. unfold table in Hi. rewrite length_map in Hi.
  destruct (nth_error tasks i) as [t|] eqn:Ht.
  - rewrite (run_result tasks (S n1) s1 i t), (run_result tasks (S n2) s2 i t);
      auto; now rewrite Htasks.
  - apply nth_error_None in Ht. lia.
Qed.

(** ** The claims about the interval join and the assemblers *)

(** C1. For a transcript row with a numeric span [tx_start, tx_end] on
    chromosome [c], the join selects exactly the observations on [c] whose
    position [p] has [tx_start <= p <= tx_end], in the order of the
    observation table, and the two strings are their positions and PSI values,
    each followed by a comma.  This holds for [process_row] of the LeafCutter
    assembler and for the loop body of the rMATS assembler; on the scenario
    (T1 on chr1 from 100 to 500) both write positions 150,480, and PSI values
    0.2,0.6, *)
Theorem C1_interval_join :
  forall (parse : string -> option Z) (r : row) (df : list observation)
         (c : cell) (tx_start tx_end : Z),
    col 2 r = c -> c <> NaN ->
    to_numeric parse (col 4 r) = Num tx_start ->
    to_numeric parse (col 5 r) = Num tx_end ->
    exists m,
      Selects (fun o => chromosome o = c /\ tx_start <= position o <= tx_end) df m
      /\ (forall idx,
            LeafcutterTable.process_row idx (LeafcutterTable.coerce parse r) df
            = Some (idx,
                    serialize (map (fun o => Py.str_int (position o)) m),
                    serialize (map (fun o => Py.str_float (psi o)) m)))
      /\ RmatsTable.annotate df [(0%nat, mkOut (RmatsTable.coerce parse r) "" "")]
           [mkOut (RmatsTable.coerce parse r) "" ""]
         = Some [mkOut (RmatsTable.coerce parse r)
                   (serialize (map (fun o => Py.str_int (position o)) m))
                   (serialize (map (fun o => Py.str_float (psi o)) m))]
      /\ LeafcutterTable.emitted_rows Py.int_of_str Sample.observations
           [Sample.T1] 4 [0%nat]
         = Some [mkOut Sample.T1 "150,480," "0.2,0.6,"]
      /\ RmatsTable.emitted_rows Py.int_of_str Sample.observations [Sample.T1]
         = Some [mkOut Sample.T1 "150,480," "0.2,0.6,"].
Proof.
  intros parse r df c s e H2 Hc H4 H5.
  destruct (matching_rows_selects (LeafcutterTable.coerce parse r) df c s e)
    as (m & Hm & Hsel); auto.
  - now rewrite coerce_col_other by lia.
  - now rewrite coerce_col4.
  - now rewrite coerce_col5.
  - exists m. split; [exact Hsel|]. split; [|split; [|split]].
    + intros idx. unfold LeafcutterTable.process_row. now rewrite Hm.
    + simpl. rewrite rmats_coerce_same, Hm. reflexivity.
    + vm_compute. reflexivity.
    + vm_compute. reflexivity.
Qed.

Lemma C1_interval_join_witness :
  exists m,
    Selects (fun o => chromosome o = Str "chr1" /\ 100 <= position o <= 500)
            Sample.observations m
    /\ map position m = [150; 480].
Proof.
  destruct (C1_interval_join Py.int_of_str Sample.T1 Sample.observations
              (Str "chr1") 100 500 eq_refl ltac:(discriminate) eq_refl eq_refl)
    as (m & Hsel & _).
  exists m. split; [exact Hsel|].
  assert (Hsel' : Selects (fun o => chromosome o = Str "chr1"
                                    /\ 100 <= position o <= 500)
                          Sample.observations
                          (firstn 2 Sample.observations)).
  { unfold Sample.observations. simpl.
    constructor; [simpl; split; [reflexivity | lia]|].
    constructor; [simpl; split; [reflexivity | lia]|].
    apply Selects_skip; [simpl; lia | constructor]. }
  rewrite (Selects_unique _ _ _ _ Hsel Hsel'). reflexivity.
Defined.

(** C7. In each of the three assemblers a transcript row whose join is empty
    (its serialised positions, and its PSI values, are the bare comma) is not
    in the table that is written, and every row with a match is, in table
    order.  The LeafCutter and rMATS assemblers process every record of the
    file; the splice-efficiency assembler processes the records after its
    header line, their coordinates read as numbers. *)
Theorem C7_rows_without_match_dropped :
  (forall (parse : string -> option Z) (df : list observation) (file : list row)
          (n : nat) (sched : list nat),
      file <> [] ->
      Pool.admissible (S n) (seq 0 (List.length file)) sched = true ->
      exists rows,
        LeafcutterTable.emitted_rows parse df file (S n) sched = Some rows
        /\ emits_matched df (map (LeafcutterTable.coerce parse) file) rows)
  /\ (forall (parse : string -> option Z) (df : list observation)
             (file : list row),
         file <> [] ->
         exists rows,
           RmatsTable.emitted_rows parse df file = Some rows
           /\ emits_matched df (map (RmatsTable.coerce parse) file) rows)
  /\ (forall (spliser_output : list SpliserTable.spliser_row) (header : row)
             (records : list row) (n : nat) (sched : list nat),
         (forall r, In r records -> numeric_span r) ->
         Pool.admissible (S n) (seq 0 (List.length records)) sched = true ->
         exists rows,
           SpliserTable.emitted_rows spliser_output (header :: records) (S n) sched
           = Some rows
           /\ emits_matched
                (map SpliserTable.as_observation
                     (SpliserTable.mean_sse_df_clean spliser_output))
                records rows).
Proof.
  split; [|split].
  - intros parse df file n sched Hne Hs. eexists. split.
    + now apply leafcutter_emitted_matched.
    + apply emits_matched_intro.
  - intros parse df file Hne. eexists. split.
    + now apply rmats_emitted_matched.
    + apply emits_matched_intro.
  - intros spl header records n sched Hnum Hs. eexists. split.
    + now apply spliser_emitted_matched.
    + apply emits_matched_intro.
Qed.

Lemma C7_rows_without_match_dropped_witness :
  exists rows,
    LeafcutterTable.emitted_rows Py.int_of_str Sample.observations
      [Sample.T2; Sample.T1] 2 [1%nat; 0%nat] = Some rows
    /\ emits_matched Sample.observations
         (map (LeafcutterTable.coerce Py.int_of_str) [Sample.T2; Sample.T1]) rows.
Proof.
  apply (proj1 C7_rows_without_match_dropped Py.int_of_str Sample.observations
           [Sample.T2; Sample.T1] 1%nat [1%nat; 0%nat]).
  - discriminate.
  - reflexivity.
Defined.



(** C9. The assemblers that use a worker pool write the same bytes whatever
    the number of worker threads and whatever order the workers finish in: two
    runs on the same observations and the same splice table give the same
    file (and the same failure on an empty table), the LeafCutter assembler
    always writing one for a table that is not empty. *)
Theorem C9_assembler_deterministic :
  forall (parse : string -> option Z) (df : list observation)
         (spliser_output : list SpliserTable.spliser_row) (file : list row)
         (n1 n2 : nat) (s1 s2 t1 t2 : list nat),
    Pool.admissible (S n1) (seq 0 (List.length file)) s1 = true ->
    Pool.admissible (S n2) (seq 0 (List.length file)) s2 = true ->
    Pool.admissible (S n1) (seq 0 (List.length (tl file))) t1 = true ->
    Pool.admissible (S n2) (seq 0 (List.length (tl file))) t2 = true ->
    LeafcutterTable.process_splice_table parse df file (S n1) s1
    = LeafcutterTable.process_splice_table parse df file (S n2) s2
    /\ (file <> [] ->
        exists text,
          LeafcutterTable.process_splice_table parse df file (S n1) s1 = Some text)
    /\ SpliserTable.main spliser_output file (S n1) t1
       = SpliserTable.main spliser_output file (S n2) t2.
Proof.
  intros parse df spl file n1 n2 s1 s2 t1 t2 H1 H2 H3 H4.
  split; [|split].
  - destruct file as [|l rest] eqn:E; [reflexivity|]. rewrite <- E in *.
    assert (Hne : file <> []) by (rewrite E; discriminate).
    unfold LeafcutterTable.process_splice_table.
    now rewrite !leafcutter_emitted_matched by assumption.
  - intros Hne. unfold LeafcutterTable.process_splice_table.
    rewrite leafcutter_emitted_matched by assumption. eauto.
  - unfold SpliserTable.main.
    now rewrite (spliser_schedule_free spl file n1 n2 t1 t2) by assumption.
Qed.

Lemma C9_assembler_deterministic_witness :
  LeafcutterTable.process_splice_table Py.int_of_str Sample.observations
    [Sample.T1; Sample.T2; Sample.T3] 1 [0%nat; 1%nat; 2%nat]
  = LeafcutterTable.process_splice_table Py.int_of_str Sample.observations
      [Sample.T1; Sample.T2; Sample.T3] 3 [2%nat; 0%nat; 1%nat].
Proof.
  apply (C9_assembler_deterministic Py.int_of_str Sample.observations
           Sample.spliser_output [Sample.T1; Sample.T2; Sample.T3]
           0%nat 2%nat [0%nat; 1%nat; 2%nat] [2%nat; 0%nat; 1%nat]
           [0%nat; 1%nat] [1%nat; 0%nat] eq_refl eq_refl eq_refl eq_refl).
Defined.

(** C10. The splice-efficiency assembler reads the first line of the splice
    table as the column names: what it writes does not depend on that line,
    and is made of the records after it only, while the LeafCutter and rMATS
    assemblers annotate and write the first line like any other record.  On
    the table T1, T2 the first two write T1 and the splice-efficiency
    assembler writes nothing. *)
Theorem C10_spliser_header_line :
  forall (spliser_output : list SpliserTable.spliser_row) (first : row)
         (records : list row) (n : nat) (sched : list nat),
    (forall first',
        SpliserTable.main spliser_output (first :: records) n sched
        = SpliserTable.main spliser_output (first' :: records) n sched)
    /\ (forall rows,
          SpliserTable.emitted_rows spliser_output (first :: records) n sched
          = Some rows ->
          exists table,
            map cells table = records /\ rows = filter SpliserTable.keep table)
    /\ (forall (parse : string -> option Z) (df : list observation)
               (k : nat) (s : list nat),
          Pool.admissible (S k) (seq 0 (S (List.length records))) s = true ->
          has_match df (LeafcutterTable.coerce parse first) = true ->
          exists rest,
            LeafcutterTable.emitted_rows parse df (first :: records) (S k) s
            = Some (annotate_with df (LeafcutterTable.coerce parse first) :: rest)
            /\ RmatsTable.emitted_rows parse df (first :: records)
               = Some (annotate_with df (RmatsTable.coerce parse first) :: rest))
    /\ SpliserTable.emitted_rows Sample.spliser_output [Sample.T1; Sample.T2] 4
         [0%nat] = Some []
    /\ LeafcutterTable.emitted_rows Py.int_of_str Sample.observations
         [Sample.T1; Sample.T2] 4 [0%nat; 1%nat]
       = Some [mkOut Sample.T1 "150,480," "0.2,0.6,"].
Proof.
  intros spl first records n sched. split; [|split; [|split; [|split]]].
  - intros first'. reflexivity.
  - intros rows H. unfold SpliserTable.emitted_rows, read_csv in H.
    destruct n as [|n]; [discriminate|].
    match type of H with
    | match ?c with _ => _ end = _ => destruct c as [table'|] eqn:Hc
    end; [|discriminate].
    inversion H. exists table'. split; [|reflexivity].
    rewrite (spliser_collect_cells _ _ _ _ Hc). rewrite map_map. simpl.
    apply map_id.
  - intros parse df k s Hs Hm.
    rewrite leafcutter_emitted_matched, rmats_emitted_matched;
      try discriminate; try assumption.
    simpl. change (RmatsTable.coerce parse) with (LeafcutterTable.coerce parse).
    rewrite Hm. simpl. eexists. split; reflexivity.
  - vm_compute. reflexivity.
  - vm_compute. reflexivity.
Qed.

(** ** The LeafCutter accumulator *)

Lemma key_eqb_eq (a b : LeafcutterPsi.dkey) :
  LeafcutterPsi.key_eqb a b = true <-> a = b.
Proof.
  destruct a as [[c1 p1] t1], b as [[c2 p2] t2]. unfold LeafcutterPsi.key_eqb.
  rewrite !andb_true_iff, !String.eqb_eq, Z.eqb_eq.
  split; [intros [[-> ->] ->]; reflexivity | intros H; inversion H; auto].
Qed.

Lemma key_eqb_refl (a : LeafcutterPsi.dkey) : LeafcutterPsi.key_eqb a a = true.
Proof. now apply key_eqb_eq. Qed.

Lemma key_eqb_neq (a b : LeafcutterPsi.dkey) :
  a <> b -> LeafcutterPsi.key_eqb a b = false.
Proof.
  intros H. destruct (LeafcutterPsi.key_eqb a b) eqn:E; [|reflexivity].
  apply key_eqb_eq in E. contradiction.
Qed.

Lemma dict_get_set_same (k : LeafcutterPsi.dkey) (a : LeafcutterPsi.accumulator)
  (d : LeafcutterPsi.dict) :
  LeafcutterPsi.dict_get k (LeafcutterPsi.dict_set k a d) = Some a.
Proof.
  induction d as [|[k' a'] d IH]; simpl.
  - now rewrite key_eqb_refl.
  - destruct (LeafcutterPsi.key_eqb k k') eqn:E; simpl; rewrite E; auto.
Qed.

Lemma dict_get_set_other (k k' : LeafcutterPsi.dkey)
  (a : LeafcutterPsi.accumulator) (d : LeafcutterPsi.dict) :
  k' <> k ->
  LeafcutterPsi.dict_get k' (LeafcutterPsi.dict_set k a d)
  = LeafcutterPsi.dict_get k' d.
Proof.
  intros Hne. induction d as [|[k0 a0] d IH]; simpl.
  - now rewrite key_eqb_neq.
  - destruct (LeafcutterPsi.key_eqb k k0) eqn:E; simpl.
    + apply key_eqb_eq in E. subst k0. now rewrite key_eqb_neq.
    + now rewrite IH.
Qed.

Lemma dict_get_In (k : LeafcutterPsi.dkey) (d : LeafcutterPsi.dict) :
  LeafcutterPsi.dict_get k d <> None <-> In k (map fst d).
Proof.
  induction d as [|[k' a'] d IH]; simpl; [tauto|].
  destruct (LeafcutterPsi.key_eqb k k') eqn:E.
  - apply key_eqb_eq in E. subst. split; [auto | discriminate].
  - rewrite IH. split; [auto|]. intros [H|H]; [|assumption].
    subst. now rewrite key_eqb_refl in E.
Qed.

Lemma dict_set_keys (k : LeafcutterPsi.dkey) (a : LeafcutterPsi.accumulator)
  (d : LeafcutterPsi.dict) :
  map fst (LeafcutterPsi.dict_set k a d)
  = match LeafcutterPsi.dict_get k d with
    | Some _ => map fst d
    | None => map fst d ++ [k]
    end.
Proof.
  induction d as [|[k' a'] d IH]; simpl; [reflexivity|].
  destruct (LeafcutterPsi.key_eqb k k') eqn:E; simpl; [reflexivity|].
  rewrite IH. now destruct (LeafcutterPsi.dict_get k d).
Qed.

Lemma dict_get_unique (k : LeafcutterPsi.dkey) (a : LeafcutterPsi.accumulator)
  (d : LeafcutterPsi.dict) :
  NoDup (map fst d) -> In (k, a) d -> LeafcutterPsi.dict_get k d = Some a.
Proof.
  induction d as [|[k' a'] d IH]; simpl; intros Hnd Hin; [contradiction|].
  inversion Hnd as [|? ? Hk Hnd']; subst.
  destruct Hin as [H|H].
  - inversion H; subst. now rewrite key_eqb_refl.
  - destruct (LeafcutterPsi.key_eqb k k') eqn:E; [|auto].
    apply key_eqb_eq in E. subst k'. exfalso. apply Hk.
    change k with (fst (k, a)). now apply in_map.
Qed.

(** One update of the accumulator: the key gains the average, the other keys
    keep their value, and a key is added at most once. *)
Lemma add_position_same (k : LeafcutterPsi.dkey) (r : LeafcutterPsi.decoded_row)
  (d : LeafcutterPsi.dict) :
  psi_at k (LeafcutterPsi.add_position k r d)
  = PrimFloat.add (psi_at k d) (LeafcutterPsi.average_psi r).
Proof.
  unfold psi_at, LeafcutterPsi.add_position.
  destruct (LeafcutterPsi.dict_get k d) as [a|] eqn:E.
  - rewrite E. now rewrite dict_get_set_same.
  - rewrite dict_get_set_same. now rewrite dict_get_set_same.
Qed.

Lemma add_position_other (k k' : LeafcutterPsi.dkey)
  (r : LeafcutterPsi.decoded_row) (d : LeafcutterPsi.dict) :
  k' <> k ->
  LeafcutterPsi.dict_get k' (LeafcutterPsi.add_position k r d)
  = LeafcutterPsi.dict_get k' d.
Proof.
  intros Hne. unfold LeafcutterPsi.add_position.
  destruct (LeafcutterPsi.dict_get k d) as [a|] eqn:E.
  - rewrite E. now apply dict_get_set_other.
  - rewrite dict_get_set_same. rewrite !dict_get_set_other by assumption.
    reflexivity.
Qed.

Lemma add_position_keys (k : LeafcutterPsi.dkey) (r : LeafcutterPsi.decoded_row)
  (d : LeafcutterPsi.dict) :
  map fst (LeafcutterPsi.add_position k r d)
  = match LeafcutterPsi.dict_get k d with
    | Some _ => map fst d
    | None => map fst d ++ [k]
    end.
Proof.
  unfold LeafcutterPsi.add_position.
  destruct (LeafcutterPsi.dict_get k d) as [a|] eqn:E.
  - rewrite E. rewrite dict_set_keys. now rewrite E.
  - rewrite dict_get_set_same. rewrite dict_set_keys, dict_get_set_same.
    rewrite dict_set_keys. now rewrite E.
Qed.

Lemma add_position_nodup (k : LeafcutterPsi.dkey) (r : LeafcutterPsi.decoded_row)
  (d : LeafcutterPsi.dict) :
  NoDup (map fst d) -> NoDup (map fst (LeafcutterPsi.add_position k r d)).
Proof.
  intros H. rewrite add_position_keys.
  destruct (LeafcutterPsi.dict_get k d) eqn:E; [assumption|].
  apply NoDup_app; [assumption | repeat constructor; simpl; tauto |].
  intros x Hx [<-|[]]. apply dict_get_In in Hx. congruence.
Qed.

Lemma accumulate_row_psi (k : LeafcutterPsi.dkey) (r : LeafcutterPsi.decoded_row)
  (d : LeafcutterPsi.dict) :
  psi_at k (LeafcutterPsi.accumulate_row d r)
  = if contributes k r
    then PrimFloat.add (psi_at k d) (LeafcutterPsi.average_psi r)
    else psi_at k d.
Proof.
  unfold contributes, LeafcutterPsi.accumulate_row.
  set (ks := (LeafcutterPsi.cluster_id r, LeafcutterPsi.exon_start r, "exon_start")).
  set (ke := (LeafcutterPsi.cluster_id r, LeafcutterPsi.exon_end r, "exon_end")).
  assert (Hse : ks <> ke) by (unfold ks, ke; intros H; inversion H).
  destruct (LeafcutterPsi.key_eqb k ks) eqn:Es.
  - apply key_eqb_eq in Es. subst k. simpl.
    unfold psi_at at 1. rewrite add_position_other by assumption.
    apply add_position_same.
  - destruct (LeafcutterPsi.key_eqb k ke) eqn:Ee; simpl.
    + apply key_eqb_eq in Ee. subst k. rewrite add_position_same.
      unfold psi_at. rewrite add_position_other; [reflexivity|].
      intros H. symmetry in H. contradiction.
    + unfold psi_at. rewrite !add_position_other; auto;
        intros H; subst k; now rewrite key_eqb_refl in *.
Qed.

Lemma accumulate_psi (k : LeafcutterPsi.dkey) (rows : list LeafcutterPsi.decoded_row) :
  forall d,
    psi_at k (fold_left LeafcutterPsi.accumulate_row rows d)
    = fold_left PrimFloat.add
        (map LeafcutterPsi.average_psi (filter (contributes k) rows))
        (psi_at k d).
Proof.
  induction rows as [|r rows IH]; intros d; simpl; [reflexivity|].
  rewrite IH, accumulate_row_psi. now destruct (contributes k r).
Qed.

Lemma accumulate_nodup (rows : list LeafcutterPsi.decoded_row) :
  forall d, NoDup (map fst d) ->
            NoDup (map fst (fold_left LeafcutterPsi.accumulate_row rows d)).
Proof.
  induction rows as [|r rows IH]; intros d H; simpl; [assumption|].
  apply IH. unfold LeafcutterPsi.accumulate_row.
  now apply add_position_nodup, add_position_nodup.
Qed.

Lemma accumulate_row_keys (k : LeafcutterPsi.dkey) (r : LeafcutterPsi.decoded_row)
  (d : LeafcutterPsi.dict) :
  In k (map fst (LeafcutterPsi.accumulate_row d r))
  <-> In k (map fst d) \/ contributes k r = true.
Proof.
  unfold contributes, LeafcutterPsi.accumulate_row.
  rewrite orb_true_iff, !key_eqb_eq, !add_position_keys.
  set (ks := (LeafcutterPsi.cluster_id r, LeafcutterPsi.exon_start r, "exon_start")).
  set (ke := (LeafcutterPsi.cluster_id r, LeafcutterPsi.exon_end r, "exon_end")).
  destruct (LeafcutterPsi.dict_get ke (LeafcutterPsi.add_position ks r d)) eqn:Ee;
    destruct (LeafcutterPsi.dict_get ks d) eqn:Es;
    rewrite ?in_app_iff; simpl;
    assert (Hs : LeafcutterPsi.dict_get ks d <> None -> In ks (map fst d))
      by apply dict_get_In;
    assert (He : LeafcutterPsi.dict_get ke (LeafcutterPsi.add_position ks r d)
                 <> None ->
                 In ke (map fst (LeafcutterPsi.add_position ks r d)))
      by apply dict_get_In;
    rewrite add_position_keys, Es in He; rewrite ?in_app_iff in He; simpl in He;
    rewrite Es in Hs; rewrite Ee in He.
  - assert (In ks (map fst d)) by (apply Hs; discriminate).
    assert (In ke (map fst d)) by (apply He; discriminate).
    intuition (subst; auto).
  - assert (In ke (map fst d) \/ ks = ke \/ False) by (apply He; discriminate).
    intuition (subst; auto).
  - assert (In ks (map fst d)) by (apply Hs; discriminate).
    intuition (subst; auto).
  - intuition (subst; auto).
Qed.

Lemma accumulate_keys (k : LeafcutterPsi.dkey) (rows : list LeafcutterPsi.decoded_row) :
  forall d,
    In k (map fst (fold_left LeafcutterPsi.accumulate_row rows d))
    <-> In k (map fst d) \/ exists r, In r rows /\ contributes k r = true.
Proof.
  induction rows as [|r rows IH]; intros d; simpl.
  - split; [auto | intros [H|(r & [] & _)]; assumption].
  - rewrite IH, accumulate_row_keys. split.
    + intros [[H|H]|(x & Hx & Hc)]; eauto.
    + intros [H|(x & [->|Hx] & Hc)]; eauto.
Qed.

Lemma summed_keys (d : LeafcutterPsi.dict) :
  map key_of (LeafcutterPsi.summed_position_df d) = map fst d.
Proof.
  unfold LeafcutterPsi.summed_position_df. rewrite map_map.
  apply map_ext. intros [[[c p] t] a]. reflexivity.
Qed.

Lemma summed_row_psi (d : LeafcutterPsi.dict) (x : LeafcutterPsi.summed_row) :
  NoDup (map fst d) ->
  In x (LeafcutterPsi.summed_position_df d) ->
  LeafcutterPsi.s_psi x = psi_at (key_of x) d.
Proof.
  intros Hnd Hx. unfold LeafcutterPsi.summed_position_df in Hx.
  apply in_map_iff in Hx as ([[[c p] t] a] & <- & Hin).
  unfold psi_at, key_of. simpl.
  now rewrite (dict_get_unique (c, p, t) a d Hnd Hin).
Qed.

(** C2. The table the LeafCutter adapter writes has one row for every key
    [(cluster_id, position, boundary_type)] some intron contributes to, and the
    PSI of the row is the sum, taken in table order from 0, of [average_psi]
    over the introns of that cluster whose boundary of that type lies at that
    position.  Two introns of a cluster with averages 0.3 and 0.4 and the same
    [exon_start] give 0.7 at that key. *)
Theorem C2_cluster_psi_summed :
  forall (df : list LeafcutterPsi.intron_row)
         (rows : list LeafcutterPsi.decoded_row),
    LeafcutterPsi.decode_all df = Some rows ->
    exists out,
      LeafcutterPsi.process_leafcutter_data df = Some out
      /\ NoDup (map key_of out)
      /\ (forall k, In k (map key_of out)
                    <-> exists r, In r rows /\ contributes k r = true)
      /\ (forall x, In x out ->
            LeafcutterPsi.s_psi x
            = sum_from_left (map LeafcutterPsi.average_psi
                                 (filter (contributes (key_of x)) rows)))
      /\ (forall r1 r2 x,
            rows = [r1; r2] ->
            LeafcutterPsi.cluster_id r1 = LeafcutterPsi.cluster_id r2 ->
            LeafcutterPsi.exon_start r1 = LeafcutterPsi.exon_start r2 ->
            LeafcutterPsi.average_psi r1 = 0.3%float ->
            LeafcutterPsi.average_psi r2 = 0.4%float ->
            In x out ->
            key_of x = (LeafcutterPsi.cluster_id r1, LeafcutterPsi.exon_start r1,
                        "exon_start") ->
            LeafcutterPsi.s_psi x = 0.7%float).
Proof.
  intros df rows Hdec. unfold LeafcutterPsi.process_leafcutter_data.
  rewrite Hdec. eexists. split; [reflexivity|].
  set (d := LeafcutterPsi.position_accumulator rows).
  assert (Hnd : NoDup (map fst d)).
  { apply accumulate_nodup. constructor. }
  assert (Hpsi : forall x, In x (LeafcutterPsi.summed_position_df d) ->
            LeafcutterPsi.s_psi x
            = sum_from_left (map LeafcutterPsi.average_psi
                                 (filter (contributes (key_of x)) rows))).
  { intros x Hx. rewrite (summed_row_psi d x Hnd Hx).
    unfold d, LeafcutterPsi.position_accumulator. now rewrite accumulate_psi. }
  split; [now rewrite summed_keys|]. split; [|split; [exact Hpsi|]].
  - intros k. rewrite summed_keys. unfold d, LeafcutterPsi.position_accumulator.
    rewrite accumulate_keys. simpl. tauto.
  - intros r1 r2 x -> Hc He H1 H2 Hx Hk. rewrite (Hpsi x Hx), Hk. simpl.
    unfold contributes. rewrite key_eqb_refl. rewrite Hc, He, key_eqb_refl.
    simpl. rewrite H1, H2. reflexivity.
Qed.

Lemma C2_cluster_psi_summed_witness :
  exists out,
    LeafcutterPsi.process_leafcutter_data [Sample.intron_a; Sample.intron_b]
    = Some out
    /\ map (fun x => (key_of x, LeafcutterPsi.s_psi x)) out
       = [(("clu_1", 501, "exon_start"), 0.7%float);
          (("clu_1", 99, "exon_end"), 0.3%float);
          (("clu_1", 199, "exon_end"), 0.4%float)].
Proof.
  destruct (C2_cluster_psi_summed [Sample.intron_a; Sample.intron_b] _ eq_refl)
    as (out & Hout & _).
  exists out. split; [exact Hout|].
  vm_compute in Hout. inversion Hout. reflexivity.
Defined.

(** C6 (what the code does).  An intron whose replicate values are all missing
    gets a NaN average, and the adapter adds it like any other: with
    [intron_a] (average 0.3) and [intron_c] (no value) ending at the same
    position, the shared [exon_start] is written with PSI NaN instead of 0.3,
    the [exon_end] of [intron_c] is written with PSI NaN, and the LeafCutter
    assembler then lists both sites of a transcript that spans them, with
    [nan] as their PSI.  The splice-efficiency adapter, for its part, drops
    the sites whose mean is undefined. *)
Theorem C6_undefined_average_written :
  LeafcutterPsi.process_leafcutter_data [Sample.intron_a; Sample.intron_c]
  = Some [LeafcutterPsi.mkSummed "clu_1" 501 "exon_start" PrimFloat.nan
            "chr1:100:500:clu_1_+" "chr1" "+";
          LeafcutterPsi.mkSummed "clu_1" 99 "exon_end" 0.3%float
            "chr1:100:500:clu_1_+" "chr1" "+";
          LeafcutterPsi.mkSummed "clu_1" 299 "exon_end" PrimFloat.nan
            "chr1:300:500:clu_1_+" "chr1" "+"]
  /\ (forall out,
        LeafcutterPsi.process_leafcutter_data [Sample.intron_a; Sample.intron_c]
        = Some out ->
        LeafcutterTable.emitted_rows Py.int_of_str
          (map LeafcutterPsi.as_observation out) [Sample.T4] 4 [0%nat]
        = Some [mkOut Sample.T4 "501,99,299," "nan,0.3,nan,"])
  /\ (forall spliser_output r,
        In r (SpliserTable.mean_sse_df_clean spliser_output) ->
        PrimFloat.is_nan (SpliserTable.mean_SSE r) = false).
Proof.
  split; [vm_compute; reflexivity|]. split.
  - intros out H. vm_compute in H. inversion H. vm_compute. reflexivity.
  - intros spl r H. unfold SpliserTable.mean_sse_df_clean in H.
    apply filter_In in H as [_ H]. now apply negb_true_iff in H.
Qed.

(** ** The rMATS extraction *)







(** ** Joined lists of numbers *)

Lemma split_no_sep (c : ascii) (s : string) :
  Py.count c s = 0%nat -> Py.split c s = [s].
Proof.
  induction s as [|a s IH]; simpl; [reflexivity|].
  destruct (Ascii.eqb a c); simpl; [discriminate|].
  intros H. now rewrite IH.
Qed.

Lemma split_append (c : ascii) (x s : string) :
  Py.count c x = 0%nat ->
  Py.split c (x ++ String c s)%string = x :: Py.split c s.
Proof.
  induction x as [|a x IH]; simpl.
  - intros _. now rewrite Ascii.eqb_refl.
  - destruct (Ascii.eqb a c); simpl; [discriminate|].
    intros H. now rewrite IH.
Qed.

Lemma split_join (l : list string) :
  l <> [] -> (forall x, In x l -> Py.count "," x = 0%nat) ->
  Py.split "," (Py.join "," l) = l.
Proof.
  unfold Py.join. induction l as [|x l IH]; intros Hne H; [congruence|].
  destruct l as [|y l].
  - simpl. apply split_no_sep. apply H. now left.
  - change (String.concat "," (x :: y :: l))
      with (x ++ String "," (String.concat "," (y :: l)))%string.
    rewrite split_append by (apply H; now left).
    f_equal. apply IH; [discriminate|]. intros z Hz. apply H. now right.
Qed.

Lemma count_join (l : list string) :
  (forall x, In x l -> Py.count "," x = 0%nat) ->
  Py.count "," (Py.join "," l) = pred (List.length l).
Proof.
  unfold Py.join. induction l as [|x l IH]; intros H; [reflexivity|].
  destruct l as [|y l].
  - simpl. apply H. now left.
  - change (String.concat "," (x :: y :: l))
      with (x ++ String "," (String.concat "," (y :: l)))%string.
    rewrite count_append. rewrite (H x) by now left.
    change (Py.count "," (String "," (String.concat "," (y :: l))))
      with (S (Py.count "," (String.concat "," (y :: l)))).
    rewrite IH by (intros z Hz; apply H; now right). reflexivity.
Qed.

Lemma map_tl {A B : Type} (f : A -> B) (l : list A) : map f (tl l) = tl (map f l).
Proof. now destruct l. Qed.

Lemma map_removelast {A B : Type} (f : A -> B) (l : list A) :
  map f (removelast l) = removelast (map f l).
Proof.
  induction l as [|x l IH]; [reflexivity|].
  destruct l as [|y l]; [reflexivity|].
  simpl in *. now rewrite IH.
Qed.

Lemma length_removelast {A : Type} (l : list A) :
  List.length (removelast l) = pred (List.length l).
Proof.
  induction l as [|x l IH]; [reflexivity|].
  destruct l as [|y l]; [reflexivity|].
  simpl in *. now rewrite IH.
Qed.

Lemma length_tl {A : Type} (l : list A) : List.length (tl l) = pred (List.length l).
Proof. now destruct l. Qed.

(** ** Insertion sort *)

Lemma insert_perm {A : Type} (le : A -> A -> bool) (x : A) (l : list A) :
  Permutation (x :: l) (insert le x l).
Proof.
  induction l as [|y l IH]; simpl; [reflexivity|].
  destruct (le x y); [reflexivity|].
  rewrite perm_swap. now constructor.
Qed.

Lemma isort_perm {A : Type} (le : A -> A -> bool) (l : list A) :
  Permutation l (isort le l).
Proof.
  induction l as [|x l IH]; simpl; [constructor|].
  rewrite <- insert_perm. now constructor.
Qed.

Lemma isort_length {A : Type} (le : A -> A -> bool) (l : list A) :
  List.length (isort le l) = List.length l.
Proof. symmetry. apply Permutation_length, isort_perm. Qed.

Lemma isort_In {A : Type} (le : A -> A -> bool) (l : list A) (x : A) :
  In x (isort le l) <-> In x l.
Proof.
  split; apply Permutation_in; [symmetry|]; apply isort_perm.
Qed.

(** For a total and transitive order the result is sorted. *)
Lemma insert_sorted {A : Type} (le : A -> A -> bool) :
  (forall a b, le a b = true \/ le b a = true) ->
  (forall a b c, le a b = true -> le b c = true -> le a c = true) ->
  forall x l,
    StronglySorted (fun a b => le a b = true) l ->
    StronglySorted (fun a b => le a b = true) (insert le x l).
Proof.
  intros Htot Htr x l H. induction H as [|y l Hs IH Hall]; simpl.
  - repeat constructor.
  - destruct (le x y) eqn:E.
    + constructor; [now constructor|]. constructor; [assumption|].
      eapply Forall_impl; [|exact Hall]. intros z Hz. now apply (Htr x y z).
    + constructor; [assumption|].
      assert (Hyx : le y x = true) by (destruct (Htot x y); congruence).
      apply (Permutation_Forall (insert_perm le x l)). now constructor.
Qed.

Lemma isort_sorted {A : Type} (le : A -> A -> bool) :
  (forall a b, le a b = true \/ le b a = true) ->
  (forall a b c, le a b = true -> le b c = true -> le a c = true) ->
  forall l, StronglySorted (fun a b => le a b = true) (isort le l).
Proof.
  intros Htot Htr l. induction l as [|x l IH]; simpl; [constructor|].
  now apply insert_sorted.
Qed.

Lemma sorted_ascending (xs : list Z) :
  StronglySorted Z.le (sorted xs) /\ Permutation xs (sorted xs).
Proof.
  split; [|apply isort_perm].
  assert (H : StronglySorted (fun a b => Z.leb a b = true) (sorted xs)).
  { apply isort_sorted.
    - intros a b. rewrite !Z.leb_le. lia.
    - intros a b c. rewrite !Z.leb_le. lia. }
  induction H; constructor; auto.
  eapply Forall_impl; [|eassumption]. intros z. apply Z.leb_le.
Qed.

(** ** The exon boundaries of the splice table *)

Lemma opt_eqb_eq (a : option string) (s : string) :
  MakeSpliceTable.opt_eqb a s = true <-> a = Some s.
Proof.
  destruct a as [x|]; simpl; [|split; discriminate].
  rewrite String.eqb_eq. split; [now intros -> | now intros [= ->]].
Qed.

(** Where a written row comes from: a record with a transcript id, and the
    entry of [exon_sites] for that id, which has a comma in its starts. *)
Lemma final_row_origin (gtf_data : list MakeSpliceTable.gtf_row)
  (paralog_data : list MakeSpliceTable.paralog_row)
  (row : MakeSpliceTable.final_row) :
  In row (MakeSpliceTable.final_df_ordered gtf_data paralog_data) ->
  exists t ss es,
    In (t, ss, es)
       (MakeSpliceTable.exon_sites (MakeSpliceTable.gtf_data_parsed gtf_data))
    /\ MakeSpliceTable.f_transcript_id row = Some t
    /\ (1 <= Py.count "," ss)%nat
    /\ MakeSpliceTable.f_exon_start_sites row
       = (Py.join "," (tl (Py.split "," ss)) ++ ",")%string
    /\ MakeSpliceTable.f_exon_end_sites row
       = (Py.join "," (removelast (Py.split "," es)) ++ ",")%string.
Proof.
  unfold MakeSpliceTable.final_df_ordered,
    MakeSpliceTable.principal_transcripts_with_exons_filtered,
    MakeSpliceTable.principal_transcripts_with_exons.
  intros H. apply in_map_iff in H as (r1 & <- & H).
  apply in_map_iff in H as (r0 & <- & H).
  apply filter_In in H as [H Hc]. apply filter_In in H as [H _].
  apply in_flat_map in H as (l & _ & H).
  apply in_map_iff in H as ([[t ss] es] & <- & H).
  apply filter_In in H as [Hin Ht]. cbn [MakeSpliceTable.exon_start_sites] in Hc.
  apply Nat.leb_le in Hc. cbn [fst snd] in *.
  apply opt_eqb_eq in Ht.
  exists t, ss, es. repeat split; assumption.
Qed.

(** C5. Every transcript the builder writes has at least two exons; its
    [exon_start_sites] are the exon starts of the transcript sorted ascending
    without the first, its [exon_end_sites] the exon ends sorted ascending
    without the last, each number followed by a comma; the two lists have the
    same length, which is at least 1. *)
Theorem C5_internal_exon_boundaries :
  forall (gtf_data : list MakeSpliceTable.gtf_row)
         (paralog_data : list MakeSpliceTable.paralog_row)
         (row : MakeSpliceTable.final_row),
    In row (MakeSpliceTable.final_df_ordered gtf_data paralog_data) ->
    exists t,
      MakeSpliceTable.f_transcript_id row = Some t
      /\ let exons := MakeSpliceTable.exon_rows
                        (MakeSpliceTable.gtf_data_parsed gtf_data) t in
         let starts := map (fun r => MakeSpliceTable.start (MakeSpliceTable.gtf r))
                           exons in
         let ends := map (fun r => MakeSpliceTable.end_ (MakeSpliceTable.gtf r))
                         exons in
         let internal_exon_starts := tl (sorted starts) in
         let internal_exon_ends := removelast (sorted ends) in
         (2 <= List.length exons)%nat
         /\ StronglySorted Z.le (sorted starts) /\ Permutation starts (sorted starts)
         /\ StronglySorted Z.le (sorted ends) /\ Permutation ends (sorted ends)
         /\ MakeSpliceTable.f_exon_start_sites row
            = serialize (map Py.str_int internal_exon_starts)
         /\ MakeSpliceTable.f_exon_end_sites row
            = serialize (map Py.str_int internal_exon_ends)
         /\ List.length internal_exon_starts = List.length internal_exon_ends
         /\ (1 <= List.length internal_exon_starts)%nat.
Proof.
  intros gtf_data paralog_data row H.
  destruct (final_row_origin _ _ _ H) as (t & ss & es & Hin & Ht & Hc & Hs & He).
  exists t. split; [exact Ht|]. intros exons starts ends ies iee.
  unfold MakeSpliceTable.exon_sites in Hin.
  apply in_map_iff in Hin as (t' & Heq & _). inversion Heq; subst t'.
  fold exons in H2, H3. fold starts in H2. fold ends in H3.
  assert (Hnc : forall l x, In x (map Py.str_int l) -> Py.count "," x = 0%nat).
  { intros l x Hx. apply in_map_iff in Hx as (z & <- & _). apply str_int_no_comma. }
  assert (Hlen : (2 <= List.length starts)%nat).
  { rewrite <- H2 in Hc. rewrite count_join in Hc by apply Hnc.
    rewrite length_map in Hc. unfold sorted in Hc. rewrite isort_length in Hc.
    lia. }
  assert (Hls : List.length (sorted starts) = List.length exons).
  { unfold sorted, starts. now rewrite isort_length, length_map. }
  assert (Hle : List.length (sorted ends) = List.length exons).
  { unfold sorted, ends. now rewrite isort_length, length_map. }
  assert (Hex : (2 <= List.length exons)%nat).
  { unfold starts in Hlen. now rewrite length_map in Hlen. }
  split; [exact Hex|].
  split; [apply sorted_ascending|]. split; [apply sorted_ascending|].
  split; [apply sorted_ascending|]. split; [apply sorted_ascending|].
  split; [|split; [|split]].
  - rewrite Hs, <- H2. rewrite split_join.
    + unfold ies, serialize. now rewrite map_tl.
    + intros E. apply (f_equal (@List.length string)) in E.
      rewrite length_map, Hls in E. simpl in E. lia.
    + apply Hnc.
  - rewrite He, <- H3. rewrite split_join.
    + unfold iee, serialize. now rewrite map_removelast.
    + intros E. apply (f_equal (@List.length string)) in E.
      rewrite length_map, Hle in E. simpl in E. lia.
    + apply Hnc.
  - unfold ies, iee. rewrite length_tl, length_removelast. lia.
  - unfold ies. rewrite length_tl. lia.
Qed.

Lemma C5_internal_exon_boundaries_witness :
  In Sample.splice_row (MakeSpliceTable.final_df_ordered Sample.gtf_data [])
  /\ exists t, MakeSpliceTable.f_transcript_id Sample.splice_row = Some t.
Proof.
  assert (H : In Sample.splice_row
                 (MakeSpliceTable.final_df_ordered Sample.gtf_data [])).
  { vm_compute. left. reflexivity. }
  split; [exact H|].
  destruct (C5_internal_exon_boundaries Sample.gtf_data [] Sample.splice_row H)
    as (t & Ht & _).
  exists t. exact Ht.
Defined.

(** ** The order of [sort_values] *)

Lemma ascii_compare_refl (a : ascii) : Ascii.compare a a = Eq.
Proof. unfold Ascii.compare. apply N.compare_refl. Qed.

Lemma ascii_compare_trans (a b c : ascii) :
  Ascii.compare a b = Lt -> Ascii.compare b c = Lt -> Ascii.compare a c = Lt.
Proof.
  unfold Ascii.compare. rewrite !N.compare_lt_iff. apply N.lt_trans.
Qed.

Lemma string_compare_refl (s : string) : String.compare s s = Eq.
Proof.
  induction s as [|a s IH]; simpl; [reflexivity|].
  now rewrite ascii_compare_refl.
Qed.

Lemma string_compare_trans (a b c : string) :
  String.compare a b = Lt -> String.compare b c = Lt -> String.compare a c = Lt.
Proof.
  revert b c. induction a as [|x a IH]; intros [|y b] [|z c]; simpl;
    try congruence.
  destruct (Ascii.compare x y) eqn:Exy; try discriminate;
    destruct (Ascii.compare y z) eqn:Eyz; try discriminate; intros H1 H2.
  - apply Ascii.compare_eq_iff in Exy, Eyz. subst.
    rewrite ascii_compare_refl. now apply (IH b c).
  - apply Ascii.compare_eq_iff in Exy. subst. now rewrite Eyz.
  - apply Ascii.compare_eq_iff in Eyz. subst. now rewrite Exy.
  - now rewrite (ascii_compare_trans x y z).
Qed.

Lemma gene_compare_order :
  order_compare (fun a b : MakeSpliceTable.parsed_row =>
                   MakeSpliceTable.gene_compare (MakeSpliceTable.gene_id a)
                                                (MakeSpliceTable.gene_id b)).
Proof.
  split.
  - intros a. destruct (MakeSpliceTable.gene_id a); simpl; auto.
    apply string_compare_refl.
  - intros a b. destruct (MakeSpliceTable.gene_id a), (MakeSpliceTable.gene_id b);
      simpl; auto. apply String.compare_antisym.
  - intros a b d.
    destruct (MakeSpliceTable.gene_id a), (MakeSpliceTable.gene_id b),
      (MakeSpliceTable.gene_id d); simpl; try congruence.
    apply string_compare_trans.
  - intros a b H x.
    destruct (MakeSpliceTable.gene_id a), (MakeSpliceTable.gene_id b);
      simpl in *; try discriminate; auto.
    apply String.compare_eq_iff in H. now subst.
Qed.

Lemma nat_key_order {A : Type} (k : A -> nat) :
  order_compare (fun a b => Nat.compare (k a) (k b)).
Proof.
  split.
  - intros a. apply Nat.compare_refl.
  - intros a b. apply Nat.compare_antisym.
  - intros a b d. rewrite !Nat.compare_lt_iff. lia.
  - intros a b H x. apply Nat.compare_eq in H. now rewrite H.
Qed.

Lemma Z_key_order {A : Type} (k : A -> Z) :
  order_compare (fun a b => Z.compare (k a) (k b)).
Proof.
  split.
  - intros a. apply Z.compare_refl.
  - intros a b. apply Z.compare_antisym.
  - intros a b d. rewrite !Z.compare_lt_iff. lia.
  - intros a b H x. apply Z.compare_eq in H. now rewrite H.
Qed.

Lemma Z_key_order_desc {A : Type} (k : A -> Z) :
  order_compare (fun a b => Z.compare (k b) (k a)).
Proof.
  split.
  - intros a. apply Z.compare_refl.
  - intros a b. apply Z.compare_antisym.
  - intros a b d. rewrite !Z.compare_lt_iff. lia.
  - intros a b H x. apply Z.compare_eq in H. now rewrite H.
Qed.

Lemma lex_order {A : Type} (c1 c2 : A -> A -> comparison) :
  order_compare c1 -> order_compare c2 -> order_compare (lex c1 c2).
Proof.
  intros [r1 s1 t1 e1] [r2 s2 t2 e2]. split; unfold lex.
  - intros a. now rewrite r1.
  - intros a b. rewrite (s1 a b), (s2 a b). now destruct (c1 a b).
  - intros a b d.
    destruct (c1 a b) eqn:Eab; try discriminate;
      destruct (c1 b d) eqn:Ebd; try discriminate; intros H1 H2.
    + rewrite (e1 a b Eab d), Ebd. eauto.
    + now rewrite (e1 a b Eab d), Ebd.
    + assert (Hdb : c1 d b = Eq) by (rewrite (s1 b d), Ebd; reflexivity).
      assert (Hda : c1 d a = Gt).
      { rewrite (e1 d b Hdb a), (s1 a b), Eab. reflexivity. }
      rewrite (s1 d a), Hda. reflexivity.
    + now rewrite (t1 a b d).
  - intros a b H x.
    destruct (c1 a b) eqn:Eab; try discriminate.
    rewrite (e1 a b Eab x), (e2 a b H x). reflexivity.
Qed.

Lemma row_compare_order : order_compare row_compare.
Proof.
  unfold row_compare.
  apply lex_order; [apply gene_compare_order|].
  apply lex_order;
    [apply (nat_key_order (fun a => MakeSpliceTable.appris_priority
                                      (MakeSpliceTable.tag a)))|].
  apply lex_order.
  - apply (Z_key_order_desc
             (fun a => MakeSpliceTable.end_ (MakeSpliceTable.gtf a))).
  - apply (Z_key_order (fun a => MakeSpliceTable.start (MakeSpliceTable.gtf a))).
Qed.

Lemma row_le_compare (a b : MakeSpliceTable.parsed_row) :
  MakeSpliceTable.row_le a b
  = match row_compare a b with Gt => false | _ => true end.
Proof.
  unfold MakeSpliceTable.row_le, row_compare, lex.
  destruct (MakeSpliceTable.gene_compare _ _); auto.
  destruct (Nat.compare _ _); auto.
  destruct (Z.compare (MakeSpliceTable.end_ _) _); auto.
Qed.

Lemma row_le_total (a b : MakeSpliceTable.parsed_row) :
  MakeSpliceTable.row_le a b = true \/ MakeSpliceTable.row_le b a = true.
Proof.
  rewrite !row_le_compare. rewrite (oc_sym _ row_compare_order a b).
  destruct (row_compare a b); simpl; auto.
Qed.

Lemma row_le_trans (a b c : MakeSpliceTable.parsed_row) :
  MakeSpliceTable.row_le a b = true -> MakeSpliceTable.row_le b c = true ->
  MakeSpliceTable.row_le a c = true.
Proof.
  rewrite !row_le_compare. pose proof row_compare_order as [r s t e].
  destruct (row_compare a b) eqn:Eab; try discriminate;
    destruct (row_compare b c) eqn:Ebc; try discriminate; intros _ _.
  - now rewrite (e a b Eab c), Ebc.
  - now rewrite (e a b Eab c), Ebc.
  - assert (Hcb : row_compare c b = Eq) by (rewrite (s b c), Ebc; reflexivity).
    assert (Hca : row_compare c a = Gt).
    { rewrite (e c b Hcb a), (s a b), Eab. reflexivity. }
    rewrite (s c a), Hca. reflexivity.
  - now rewrite (t a b c).
Qed.


(** Inside a gene the order is the rank. *)
Lemma row_le_same_gene (a b : MakeSpliceTable.parsed_row) (g : string) :
  MakeSpliceTable.gene_id a = Some g -> MakeSpliceTable.gene_id b = Some g ->
  MakeSpliceTable.row_le a b = true -> ranks_before a b.
Proof.
  intros Ha Hb. unfold MakeSpliceTable.row_le, ranks_before.
  rewrite Ha, Hb. simpl. rewrite string_compare_refl.
  destruct (Nat.compare_spec
              (MakeSpliceTable.appris_priority (MakeSpliceTable.tag a))
              (MakeSpliceTable.appris_priority (MakeSpliceTable.tag b)));
    try discriminate; auto.
  destruct (Z.compare_spec (MakeSpliceTable.end_ (MakeSpliceTable.gtf b))
                           (MakeSpliceTable.end_ (MakeSpliceTable.gtf a)));
    try discriminate; auto.
  rewrite Z.leb_le. intros Hs. right. split; [assumption|]. right. lia.
Qed.

(** ** The groups of [groupby] *)

Lemma unique_In (l : list string) (x : string) : In x (unique l) <-> In x l.
Proof.
  induction l as [|y l IH]; simpl; [tauto|].
  rewrite filter_In, IH, negb_true_iff, String.eqb_neq.
  destruct (string_dec y x); [subst; tauto | tauto].
Qed.


Lemma some_values_In (l : list (option string)) (s : string) :
  In s (MakeSpliceTable.some_values l) <-> In (Some s) l.
Proof.
  unfold MakeSpliceTable.some_values. rewrite in_flat_map. split.
  - intros ([x|] & Hx & Hs); simpl in Hs; [|contradiction].
    destruct Hs as [->|[]]. assumption.
  - intros H. exists (Some s). split; [assumption | now left].
Qed.









(** * Further properties of the code *)

(** ** The other event types of the rMATS extraction *)





















(** ** Replicate values that are not numbers *)






(** ** The intron key *)

Lemma to_uint_nonnil (p : positive) : Pos.to_uint p <> Decimal.Nil.
Proof. apply DecimalPos.Unsigned.to_uint_nonnil. Qed.

Lemma int_of_str_str_int (z : Z) : Py.int_of_str (Py.str_int z) = Some z.
Proof.
  unfold Py.str_int.
  assert (H : NilZero.int_of_string (NilZero.string_of_int (Z.to_int z))
              = Some (Z.to_int z)).
  { apply NilZero.isi; destruct z; simpl; try discriminate;
      intros [= E]; now apply to_uint_nonnil in E. }
  assert (Hplus : Py.int_of_str (NilZero.string_of_int (Z.to_int z))
                  = option_map Z.of_int
                      (NilZero.int_of_string
                         (NilZero.string_of_int (Z.to_int z)))).
  { unfold NilZero.string_of_int, NilZero.string_of_uint.
    destruct (Z.to_int z) as [d|d]; destruct d; reflexivity. }
  rewrite Hplus, H. simpl. now rewrite DecimalZ.of_to.
Qed.






Lemma append_assoc (a b c : string) : ((a ++ b) ++ c = a ++ (b ++ c))%string.
Proof.
  induction a as [|x a IH]; simpl; [reflexivity | now rewrite IH].
Qed.



(** ** What the accumulator records for a key *)

Lemma add_position_meta_same (k : LeafcutterPsi.dkey)
  (r : LeafcutterPsi.decoded_row) (d : LeafcutterPsi.dict) :
  meta_at k (LeafcutterPsi.add_position k r d)
  = match meta_at k d with
    | Some m => Some m
    | None => Some (row_metadata r)
    end.
Proof.
  unfold meta_at, LeafcutterPsi.add_position.
  destruct (LeafcutterPsi.dict_get k d) as [a|] eqn:E.
  - rewrite E. now rewrite dict_get_set_same.
  - rewrite dict_get_set_same. now rewrite dict_get_set_same.
Qed.

Lemma accumulate_row_meta (k : LeafcutterPsi.dkey)
  (r : LeafcutterPsi.decoded_row) (d : LeafcutterPsi.dict) :
  meta_at k (LeafcutterPsi.accumulate_row d r)
  = match meta_at k d with
    | Some m => Some m
    | None => if contributes k r then Some (row_metadata r) else None
    end.
Proof.
  unfold contributes, LeafcutterPsi.accumulate_row.
  set (ks := (LeafcutterPsi.cluster_id r, LeafcutterPsi.exon_start r, "exon_start")).
  set (ke := (LeafcutterPsi.cluster_id r, LeafcutterPsi.exon_end r, "exon_end")).
  assert (Hse : ks <> ke) by (unfold ks, ke; intros H; inversion H).
  destruct (LeafcutterPsi.key_eqb k ks) eqn:Es.
  - apply key_eqb_eq in Es. subst k. simpl.
    unfold meta_at at 1. rewrite add_position_other by assumption.
    apply add_position_meta_same.
  - destruct (LeafcutterPsi.key_eqb k ke) eqn:Ee; simpl.
    + apply key_eqb_eq in Ee. subst k. rewrite add_position_meta_same.
      unfold meta_at. rewrite add_position_other; [reflexivity|].
      intros H. symmetry in H. contradiction.
    + unfold meta_at. rewrite !add_position_other;
        [now destruct (LeafcutterPsi.dict_get k d) | |];
        intros H; subst k; now rewrite key_eqb_refl in *.
Qed.

Lemma accumulate_meta (k : LeafcutterPsi.dkey)
  (rows : list LeafcutterPsi.decoded_row) :
  forall d,
    meta_at k (fold_left LeafcutterPsi.accumulate_row rows d)
    = match meta_at k d with
      | Some m => Some m
      | None => option_map row_metadata (find (contributes k) rows)
      end.
Proof.
  induction rows as [|r rows IH]; intros d; simpl.
  - now destruct (meta_at k d).
  - rewrite IH, accumulate_row_meta.
    destruct (meta_at k d); [reflexivity|]. now destruct (contributes k r).
Qed.

(** X9. A written row carries the intron key, the chromosome and the strand of
    the first intron, in table order, that contributes to its key; the introns
    that add to the sum later leave them as they are. *)
Theorem X9_first_contributor_recorded :
  forall (df : list LeafcutterPsi.intron_row)
         (rows : list LeafcutterPsi.decoded_row)
         (out : list LeafcutterPsi.summed_row) (x : LeafcutterPsi.summed_row),
    LeafcutterPsi.decode_all df = Some rows ->
    LeafcutterPsi.process_leafcutter_data df = Some out ->
    In x out ->
    exists r,
      find (contributes (key_of x)) rows = Some r
      /\ LeafcutterPsi.s_intron_info x = LeafcutterPsi.d_intron_info r
      /\ LeafcutterPsi.s_chromosome x = LeafcutterPsi.d_chromosome r
      /\ LeafcutterPsi.s_strand x = LeafcutterPsi.strand r.
Proof.
  intros df rows out x Hdec Hout Hx.
  unfold LeafcutterPsi.process_leafcutter_data in Hout. rewrite Hdec in Hout.
  inversion Hout; subst out. clear Hout.
  set (d := LeafcutterPsi.position_accumulator rows) in *.
  assert (Hnd : NoDup (map fst d)) by (apply accumulate_nodup; constructor).
  unfold LeafcutterPsi.summed_position_df in Hx.
  apply in_map_iff in Hx as ([[[c p] t] a] & <- & Hin).
  pose proof (dict_get_unique (c, p, t) a d Hnd Hin) as Hget.
  pose proof (accumulate_meta (c, p, t) rows []) as Hm.
  fold (LeafcutterPsi.position_accumulator rows) in Hm. fold d in Hm.
  unfold meta_at at 1 in Hm. rewrite Hget in Hm. simpl in Hm.
  unfold key_of. simpl.
  destruct (find (contributes (c, p, t)) rows) as [r|]; [|discriminate].
  exists r. split; [reflexivity|]. inversion Hm. auto.
Qed.

Lemma X9_first_contributor_recorded_witness :
  exists r,
    find (contributes ("clu_1", 501, "exon_start"))
         [LeafcutterPsi.mkDecoded "chr1:100:500:clu_1_+" "chr1" 100 500 501 99
            "clu_1" "+" 0.3%float;
          LeafcutterPsi.mkDecoded "chr1:200:500:clu_1_+" "chr1" 200 500 501 199
            "clu_1" "+" 0.4%float] = Some r
    /\ LeafcutterPsi.d_intron_info r = "chr1:100:500:clu_1_+".
Proof.
  destruct (X9_first_contributor_recorded
              [Sample.intron_a; Sample.intron_b] _ _
              (LeafcutterPsi.mkSummed "clu_1" 501 "exon_start" 0.7%float
                 "chr1:100:500:clu_1_+" "chr1" "+")
              eq_refl eq_refl (or_introl eq_refl))
    as (r & Hr & Hi & _).
  exists r. split; [exact Hr | now rewrite <- Hi].
Defined.

(** ** Undefined values in binary64 arithmetic *)

Lemma is_nan_spec (x : float) :
  PrimFloat.is_nan x = true <-> Prim2SF x = S754_nan.
Proof.
  unfold PrimFloat.is_nan. rewrite eqb_spec.
  destruct (Prim2SF x) as [s|s| |s m e] eqn:E; simpl.
  - destruct s; simpl; split; discriminate.
  - destruct s; simpl; split; discriminate.
  - split; reflexivity.
  - unfold SFeqb, SFcompare. destruct s; simpl;
      rewrite Z.compare_refl, Pos.compare_refl; simpl; split; discriminate.
Qed.

Lemma is_nan_eq (x : float) : PrimFloat.is_nan x = true -> x = PrimFloat.nan.
Proof.
  intros H. apply is_nan_spec in H. apply Prim2SF_inj. rewrite H. reflexivity.
Qed.

Lemma add_nan_r (x : float) : PrimFloat.add x PrimFloat.nan = PrimFloat.nan.
Proof.
  apply Prim2SF_inj. rewrite add_spec.
  change (Prim2SF PrimFloat.nan) with S754_nan.
  unfold SF64add, SFadd. now destruct (Prim2SF x) as [s|s| |s m e].
Qed.

Lemma add_nan_l (x : float) : PrimFloat.add PrimFloat.nan x = PrimFloat.nan.
Proof.
  apply Prim2SF_inj. rewrite add_spec.
  change (Prim2SF PrimFloat.nan) with S754_nan. reflexivity.
Qed.

Lemma fold_add_from_nan (xs : list float) :
  fold_left PrimFloat.add xs PrimFloat.nan = PrimFloat.nan.
Proof.
  induction xs as [|x xs IH]; simpl; [reflexivity|]. now rewrite add_nan_l.
Qed.

Lemma fold_add_nan (xs : list float) :
  forall a, In PrimFloat.nan xs -> fold_left PrimFloat.add xs a = PrimFloat.nan.
Proof.
  induction xs as [|x xs IH]; intros a H; [contradiction|].
  simpl. destruct H as [H|H].
  - subst x. rewrite add_nan_r. apply fold_add_from_nan.
  - now apply IH.
Qed.

Lemma mean_skipna_all_missing (xs : list float) :
  (forall v, In v xs -> PrimFloat.is_nan v = true) ->
  mean_skipna xs = PrimFloat.nan.
Proof.
  intros H. unfold mean_skipna.
  replace (filter (fun x => negb (PrimFloat.is_nan x)) xs) with (@nil float);
    [reflexivity|].
  symmetry. induction xs as [|x xs IH]; simpl; [reflexivity|].
  rewrite (H x (or_introl eq_refl)). simpl. apply IH.
  intros v Hv. apply H. now right.
Qed.

Lemma decode_all_In (df : list LeafcutterPsi.intron_row) :
  forall rows i r,
    LeafcutterPsi.decode_all df = Some rows ->
    In i df -> LeafcutterPsi.decode i = Some r -> In r rows.
Proof.
  induction df as [|j df IH]; intros rows i r Hall Hin Hdec; [contradiction|].
  simpl in Hall.
  destruct (LeafcutterPsi.decode j) as [d|] eqn:Ej; [|discriminate].
  destruct (LeafcutterPsi.decode_all df) as [ds|] eqn:Eds; [|discriminate].
  inversion Hall; subst rows. destruct Hin as [->|Hin].
  - rewrite Hdec in Ej. inversion Ej. now left.
  - right. now apply (IH ds i r).
Qed.

Lemma decode_average (i : LeafcutterPsi.intron_row) (r : LeafcutterPsi.decoded_row) :
  LeafcutterPsi.decode i = Some r ->
  LeafcutterPsi.average_psi r = mean_skipna (LeafcutterPsi.samples i).
Proof.
  unfold LeafcutterPsi.decode. intros H.
  destruct (Py.split ":" (LeafcutterPsi.intron_info i))
    as [|a [|b [|c [|d [|e l]]]]]; try discriminate.
  destruct (Py.int_of_str b); [|discriminate].
  destruct (Py.int_of_str c); [|discriminate].
  now inversion H.
Qed.

(** X10. An intron without a single replicate value makes the PSI of both of
    its boundaries undefined: whatever the other introns of the cluster add at
    the same position, before or after it, the row is written with PSI NaN. *)
Theorem X10_missing_intron_poisons_sum :
  forall (df : list LeafcutterPsi.intron_row)
         (out : list LeafcutterPsi.summed_row)
         (i : LeafcutterPsi.intron_row) (r : LeafcutterPsi.decoded_row)
         (x : LeafcutterPsi.summed_row),
    LeafcutterPsi.process_leafcutter_data df = Some out ->
    In i df -> LeafcutterPsi.decode i = Some r ->
    (forall v, In v (LeafcutterPsi.samples i) -> PrimFloat.is_nan v = true) ->
    In x out -> contributes (key_of x) r = true ->
    LeafcutterPsi.s_psi x = PrimFloat.nan.
Proof.
  intros df out i r x Hout Hi Hdec Hall Hx Hc.
  unfold LeafcutterPsi.process_leafcutter_data in Hout.
  destruct (LeafcutterPsi.decode_all df) as [rows|] eqn:Erows; [|discriminate].
  inversion Hout; subst out. clear Hout.
  rewrite (summed_row_psi (LeafcutterPsi.position_accumulator rows) x);
    [| apply accumulate_nodup; constructor | exact Hx].
  unfold LeafcutterPsi.position_accumulator. rewrite accumulate_psi.
  apply fold_add_nan.
  rewrite <- (mean_skipna_all_missing _ Hall), <- (decode_average i r Hdec).
  apply in_map. apply filter_In. split; [|exact Hc].
  exact (decode_all_In df rows i r Erows Hi Hdec).
Qed.

Lemma X10_missing_intron_poisons_sum_witness :
  LeafcutterPsi.s_psi
    (LeafcutterPsi.mkSummed "clu_1" 501 "exon_start" PrimFloat.nan
       "chr1:100:500:clu_1_+" "chr1" "+") = PrimFloat.nan.
Proof.
  apply (X10_missing_intron_poisons_sum
           [Sample.intron_a; Sample.intron_c] _ Sample.intron_c
           (LeafcutterPsi.mkDecoded "chr1:300:500:clu_1_+" "chr1" 300 500 501 299
              "clu_1" "+" PrimFloat.nan) _ eq_refl).
  - right. now left.
  - reflexivity.
  - intros v Hv. simpl in Hv.
    repeat (destruct Hv as [<-|Hv]; [reflexivity|]). contradiction.
  - left. reflexivity.
  - reflexivity.
Defined.

(** ** A coordinate that is text, in the splice-efficiency assembler *)








(** ** The column types of the written table *)






(** ** Reading the added columns back *)

Lemma split_serialize (l : list string) :
  l <> [] -> (forall x, In x l -> Py.count "," x = 0%nat) ->
  Py.split "," (serialize l) = l ++ [""%string].
Proof.
  unfold serialize, Py.join. induction l as [|x l IH]; intros Hne H; [congruence|].
  destruct l as [|y l].
  - simpl String.concat. change (x ++ ",")%string with (x ++ String "," "")%string.
    rewrite split_append by (apply H; now left). reflexivity.
  - change (String.concat "," (x :: y :: l) ++ ",")%string
      with ((x ++ String "," (String.concat "," (y :: l))) ++ ",")%string.
    rewrite append_assoc.
    change (String "," (String.concat "," (y :: l)) ++ ",")%string
      with (String "," (String.concat "," (y :: l) ++ ","))%string.
    rewrite split_append by (apply H; now left).
    rewrite IH; [reflexivity | discriminate |].
    intros z Hz. apply H. now right.
Qed.

Lemma removelast_snoc {A : Type} (l : list A) (x : A) : removelast (l ++ [x]) = l.
Proof.
  induction l as [|y l IH]; [reflexivity|].
  simpl. rewrite IH. now destruct l.
Qed.

Lemma positions_read_back (m : list observation) :
  m <> [] ->
  map Py.int_of_str (removelast (Py.split "," (positions_of m)))
  = map (fun o => Some (position o)) m.
Proof.
  intros Hm. unfold positions_of. rewrite split_serialize.
  - rewrite removelast_snoc, map_map. apply map_ext. intros o.
    apply int_of_str_str_int.
  - intros E. apply map_eq_nil in E. contradiction.
  - intros x Hx. apply in_map_iff in Hx as (o & <- & _). apply str_int_no_comma.
Qed.

(** The positions of the matches of a row, as the reader of the column gets
    them back. *)
Lemma written_positions (df : list observation) (table : list row) (x : out_row) :
  In x (map (annotate_with df) (filter (has_match df) table)) ->
  join_of df (cells x) <> []
  /\ map Py.int_of_str (removelast (Py.split "," (positions x)))
     = map (fun o => Some (position o)) (join_of df (cells x)).
Proof.
  intros Hx. apply in_map_iff in Hx as (c & <- & Hc).
  apply filter_In in Hc as [_ Hm]. simpl.
  assert (Hj : join_of df c <> []).
  { unfold has_match in Hm. intros E. rewrite E in Hm. discriminate. }
  split; [exact Hj|]. now apply positions_read_back.
Qed.

(** X13. The [positions] column of a written row can be read back: split at
    the commas it gives one field for each matched observation and an empty
    last field, and the fields before the last, read as integers, are the
    positions of the matched observations in table order; there is at least
    one.  This holds for the rows written by each of the three assemblers. *)
Theorem X13_positions_read_back :
  (forall (parse : string -> option Z) (df : list observation) (file : list row)
          (n : nat) (sched : list nat) (rows : list out_row) (x : out_row),
      Pool.admissible (S n) (seq 0 (List.length file)) sched = true ->
      LeafcutterTable.emitted_rows parse df file (S n) sched = Some rows ->
      In x rows ->
      join_of df (cells x) <> []
      /\ map Py.int_of_str (removelast (Py.split "," (positions x)))
         = map (fun o => Some (position o)) (join_of df (cells x)))
  /\ (forall (parse : string -> option Z) (df : list observation)
             (file : list row) (rows : list out_row) (x : out_row),
         RmatsTable.emitted_rows parse df file = Some rows ->
         In x rows ->
         join_of df (cells x) <> []
         /\ map Py.int_of_str (removelast (Py.split "," (positions x)))
            = map (fun o => Some (position o)) (join_of df (cells x)))
  /\ (forall (spliser_output : list SpliserTable.spliser_row) (header : row)
             (records : list row) (n : nat) (sched : list nat)
             (rows : list out_row) (x : out_row),
         (forall r, In r records -> numeric_span r) ->
         Pool.admissible (S n) (seq 0 (List.length records)) sched = true ->
         SpliserTable.emitted_rows spliser_output (header :: records) (S n) sched
         = Some rows ->
         In x rows ->
         let df := map SpliserTable.as_observation
                       (SpliserTable.mean_sse_df_clean spliser_output) in
         join_of df (cells x) <> []
         /\ map Py.int_of_str (removelast (Py.split "," (positions x)))
            = map (fun o => Some (position o)) (join_of df (cells x))).
Proof.
  split; [|split].
  - intros parse df file n sched rows x Hs H Hx.
    assert (Hne : file <> []) by (intros ->; discriminate).
    rewrite leafcutter_emitted_matched in H by assumption.
    inversion H; subst rows. now apply written_positions in Hx.
  - intros parse df file rows x H Hx.
    assert (Hne : file <> []) by (intros ->; discriminate).
    rewrite rmats_emitted_matched in H by assumption.
    inversion H; subst rows. now apply written_positions in Hx.
  - intros spl header records n sched rows x Hnum Hs H Hx df.
    rewrite spliser_emitted_matched in H by assumption.
    inversion H; subst rows. now apply written_positions in Hx.
Qed.

Lemma X13_positions_read_back_witness :
  map Py.int_of_str (removelast (Py.split "," "150,480,")) = [Some 150; Some 480].
Proof.
  assert (Hs : Pool.admissible 4 (seq 0 (List.length [Sample.T1; Sample.T2]))
                 [1%nat; 0%nat] = true) by reflexivity.
  assert (Hr : LeafcutterTable.emitted_rows Py.int_of_str Sample.observations
                 [Sample.T1; Sample.T2] 4 [1%nat; 0%nat]
               = Some [mkOut Sample.T1 "150,480," "0.2,0.6,"])
    by (vm_compute; reflexivity).
  destruct X13_positions_read_back as (HL & _ & _).
  destruct (HL Py.int_of_str Sample.observations [Sample.T1; Sample.T2] 3%nat
              [1%nat; 0%nat] _ (mkOut Sample.T1 "150,480," "0.2,0.6,") Hs Hr
              (or_introl eq_refl)) as [_ H].
  etransitivity; [exact H|]. vm_compute. reflexivity.
Defined.

(** ** The attributes of a record *)







Lemma skip_append (a b : string) :
  MakeSpliceTable.skip (String.length a) (a ++ b)%string = b.
Proof.
  induction a as [|c a IH]; simpl; [now destruct b | exact IH].
Qed.


Lemma length_pattern (name : string) :
  String.length (pattern name) = String.length (name ++ " " ++ String dquote "")%string.
Proof. reflexivity. Qed.















(** ** Where a row of the splice table comes from *)




(** ** Ties in the choice of the primary transcript *)

Lemma filter_insert {A : Type} (le : A -> A -> bool) (p : A -> bool) :
  (forall a b c, le a b = true -> le b c = true -> le a c = true) ->
  forall x l,
    StronglySorted (fun a b => le a b = true) l ->
    filter p (insert le x l)
    = if p x then insert le x (filter p l) else filter p l.
Proof.
  intros Htr x l H. induction H as [|y l Hs IH Hall]; simpl.
  - now destruct (p x).
  - destruct (le x y) eqn:E; simpl.
    + destruct (p x) eqn:Px; [|reflexivity].
      destruct (p y) eqn:Py; simpl; [now rewrite E|].
      destruct (filter p l) as [|z fl] eqn:Ef; [reflexivity|]. simpl.
      assert (Hz : In z l).
      { assert (Hin : In z (filter p l)) by (rewrite Ef; now left).
        now apply filter_In in Hin. }
      rewrite Forall_forall in Hall.
      now rewrite (Htr x y z E (Hall z Hz)).
    + rewrite IH. destruct (p x), (p y); simpl; try reflexivity.
      now rewrite E.
Qed.

(** Sorting by insertion and filtering commute: the sort is stable. *)
Lemma filter_isort {A : Type} (le : A -> A -> bool) (p : A -> bool) :
  (forall a b, le a b = true \/ le b a = true) ->
  (forall a b c, le a b = true -> le b c = true -> le a c = true) ->
  forall l, filter p (isort le l) = isort le (filter p l).
Proof.
  intros Htot Htr l. induction l as [|x l IH]; simpl; [reflexivity|].
  rewrite filter_insert by auto using isort_sorted.
  destruct (p x); simpl; now rewrite IH.
Qed.

(** The head of the sorted list is the first of the least elements. *)
Lemma isort_head {A : Type} (le : A -> A -> bool) (x : A) (b : list A) :
  (forall y, In y b -> le x y = true) ->
  forall a, (forall y, In y a -> le y x = false) ->
    exists s, isort le (a ++ x :: b) = x :: s.
Proof.
  intros Hb. induction a as [|z a IH]; intros Ha; simpl.
  - destruct (isort le b) as [|y s] eqn:E; simpl; [now exists []|].
    assert (Hy : In y b) by (apply (isort_In le b); rewrite E; now left).
    rewrite (Hb y Hy). now exists (y :: s).
  - destruct IH as [s ->]; [intros y Hy; apply Ha; now right|].
    simpl. rewrite (Ha z (or_introl eq_refl)). now eexists.
Qed.

Lemma ranks_before_row_le (a b : MakeSpliceTable.parsed_row) (g : string) :
  MakeSpliceTable.gene_id a = Some g -> MakeSpliceTable.gene_id b = Some g ->
  ranks_before a b -> MakeSpliceTable.row_le a b = true.
Proof.
  intros Ha Hb. unfold MakeSpliceTable.row_le, ranks_before.
  rewrite Ha, Hb. simpl. rewrite string_compare_refl.
  intros H.
  destruct (Nat.compare_spec
              (MakeSpliceTable.appris_priority (MakeSpliceTable.tag a))
              (MakeSpliceTable.appris_priority (MakeSpliceTable.tag b)));
    [| reflexivity | lia].
  destruct (Z.compare_spec (MakeSpliceTable.end_ (MakeSpliceTable.gtf b))
                           (MakeSpliceTable.end_ (MakeSpliceTable.gtf a)));
    [| reflexivity | lia].
  apply Z.leb_le. lia.
Qed.

(** X16. Ties in the choice of the primary transcript are broken by the order
    of the records in the annotation: of the transcript records of a gene that
    rank before all the others (same APPRIS priority, same end, same start),
    the first in file order is the one selected. *)
Theorem X16_ties_broken_by_file_order :
  forall (gtf_data : list MakeSpliceTable.gtf_row) (g t : string)
         (before after : list MakeSpliceTable.parsed_row)
         (r : MakeSpliceTable.parsed_row),
    coding_transcripts gtf_data = before ++ r :: after ->
    MakeSpliceTable.gene_id r = Some g ->
    MakeSpliceTable.transcript_id r = Some t ->
    (forall r', In r' (coding_transcripts gtf_data) ->
                MakeSpliceTable.gene_id r' = Some g -> ranks_before r r') ->
    (forall r', In r' before -> MakeSpliceTable.gene_id r' = Some g ->
                ~ ranks_before r' r) ->
    In (g, Some t)
       (MakeSpliceTable.primary_transcripts
          (MakeSpliceTable.gtf_data_parsed gtf_data)).
Proof.
  intros gtf_data g t before after r HT Hg Ht Hmin Hfirst.
  unfold MakeSpliceTable.primary_transcripts, MakeSpliceTable.groupby_first.
  fold (coding_transcripts gtf_data).
  set (T := coding_transcripts gtf_data) in *.
  set (p := fun x => MakeSpliceTable.opt_eqb (MakeSpliceTable.gene_id x) g).
  apply in_map_iff. exists g. split.
  - f_equal. unfold MakeSpliceTable.sort_values.
    rewrite (filter_isort MakeSpliceTable.row_le p row_le_total row_le_trans).
    rewrite HT, filter_app. simpl. unfold p at 2. rewrite Hg. simpl.
    rewrite String.eqb_refl.
    destruct (isort_head MakeSpliceTable.row_le r (filter p after))
      with (a := filter p before) as [s ->].
    + intros y Hy. apply filter_In in Hy as [Hy Py]. apply opt_eqb_eq in Py.
      apply (ranks_before_row_le r y g Hg Py). apply Hmin; [|exact Py].
      rewrite HT. apply in_or_app. right. now right.
    + intros y Hy. apply filter_In in Hy as [Hy Py]. apply opt_eqb_eq in Py.
      destruct (MakeSpliceTable.row_le y r) eqn:E; [|reflexivity].
      exfalso. apply (Hfirst y Hy Py). now apply (row_le_same_gene y r g).
    + simpl. now rewrite Ht.
  - apply unique_In, some_values_In. rewrite <- Hg. apply in_map.
    apply (isort_In MakeSpliceTable.row_le T). rewrite HT.
    apply in_or_app. right. now left.
Qed.

Lemma X16_ties_broken_by_file_order_witness :
  In ("G1.1"%string, Some "Ta"%string)
     (MakeSpliceTable.primary_transcripts
        (MakeSpliceTable.gtf_data_parsed Ties.gtf_data)).
Proof.
  apply (X16_ties_broken_by_file_order Ties.gtf_data "G1.1" "Ta" []
           [MakeSpliceTable.parse Ties.second_record]
           (MakeSpliceTable.parse Ties.first_record)).
  - vm_compute. reflexivity.
  - vm_compute. reflexivity.
  - vm_compute. reflexivity.
  - intros r' Hr' _. vm_compute in Hr'.
    destruct Hr' as [<-|[<-|[]]]; right; (split; [vm_compute; reflexivity|]);
      right; (split; [reflexivity|]); vm_compute; discriminate.
  - intros r' [].
Defined.

(** ** The transcripts that reach the splice table *)

Lemma exon_sites_entry (parsed : list MakeSpliceTable.parsed_row) (t : string) :
  MakeSpliceTable.exon_rows parsed t <> [] ->
  In (t,
      Py.join "," (map Py.str_int
                     (sorted (map (fun r => MakeSpliceTable.start (MakeSpliceTable.gtf r))
                                  (MakeSpliceTable.exon_rows parsed t)))),
      Py.join "," (map Py.str_int
                     (sorted (map (fun r => MakeSpliceTable.end_ (MakeSpliceTable.gtf r))
                                  (MakeSpliceTable.exon_rows parsed t)))))
     (MakeSpliceTable.exon_sites parsed).
Proof.
  intros Hne. unfold MakeSpliceTable.exon_sites.
  apply in_map_iff. exists t. split; [reflexivity|].
  apply (isort_In String.leb), unique_In, some_values_In.
  destruct (MakeSpliceTable.exon_rows parsed t) as [|e es] eqn:E; [congruence|].
  assert (He : In e (MakeSpliceTable.exon_rows parsed t)) by (rewrite E; now left).
  unfold MakeSpliceTable.exon_rows in He. apply filter_In in He as [He Hp].
  apply andb_true_iff in Hp as [Hf Ht]. apply opt_eqb_eq in Ht.
  rewrite <- Ht. apply in_map. apply filter_In. now split.
Qed.

(** X17. Every primary transcript with at least two exon records reaches the
    splice table: if a transcript record of a protein-coding gene carries the
    id selected as primary transcript of some gene, and the annotation has two
    or more exon records with that id, the table has a row with the id, the
    sequence name, the strand, the start and the end of that record. *)
Theorem X17_primary_transcript_written :
  forall (gtf_data : list MakeSpliceTable.gtf_row)
         (paralog_data : list MakeSpliceTable.paralog_row)
         (r : MakeSpliceTable.parsed_row) (g t : string),
    In r (coding_transcripts gtf_data) ->
    MakeSpliceTable.transcript_id r = Some t ->
    In (g, Some t)
       (MakeSpliceTable.primary_transcripts
          (MakeSpliceTable.gtf_data_parsed gtf_data)) ->
    (2 <= List.length (MakeSpliceTable.exon_rows
                         (MakeSpliceTable.gtf_data_parsed gtf_data) t))%nat ->
    exists row,
      In row (MakeSpliceTable.final_df_ordered gtf_data paralog_data)
      /\ MakeSpliceTable.f_transcript_id row = Some t
      /\ MakeSpliceTable.f_seqname row = MakeSpliceTable.seqname (MakeSpliceTable.gtf r)
      /\ MakeSpliceTable.f_strand row = MakeSpliceTable.strand (MakeSpliceTable.gtf r)
      /\ MakeSpliceTable.f_start row = MakeSpliceTable.start (MakeSpliceTable.gtf r)
      /\ MakeSpliceTable.f_end row = MakeSpliceTable.end_ (MakeSpliceTable.gtf r).
Proof.
  intros gtf_data paralog_data r g t Hr Ht Hp Hex.
  set (parsed := MakeSpliceTable.gtf_data_parsed gtf_data) in *.
  set (exons := MakeSpliceTable.exon_rows parsed t) in *.
  set (ss := Py.join "," (map Py.str_int
               (sorted (map (fun r => MakeSpliceTable.start (MakeSpliceTable.gtf r))
                            exons)))).
  set (es := Py.join "," (map Py.str_int
               (sorted (map (fun r => MakeSpliceTable.end_ (MakeSpliceTable.gtf r))
                            exons)))).
  assert (Hentry : In (t, ss, es) (MakeSpliceTable.exon_sites parsed)).
  { apply exon_sites_entry. fold exons. intros E. rewrite E in Hex. simpl in Hex. lia. }
  assert (Hcount : (1 <= Py.count "," ss)%nat).
  { unfold ss. rewrite count_join.
    - rewrite length_map. unfold sorted. rewrite isort_length, length_map. lia.
    - intros x Hx. apply in_map_iff in Hx as (z & <- & _). apply str_int_no_comma. }
  unfold coding_transcripts in Hr. apply filter_In in Hr as [Hr Hf].
  fold parsed in Hr.
  set (a := MakeSpliceTable.mkAnnotated r g ss es).
  assert (Ha : In a (MakeSpliceTable.principal_transcripts_with_exons parsed)).
  { unfold MakeSpliceTable.principal_transcripts_with_exons.
    apply filter_In. split; [|exact Hf].
    apply in_flat_map. exists (r, g). split.
    - unfold MakeSpliceTable.principal_transcripts_data.
      apply in_flat_map. exists r. split; [exact Hr|].
      apply in_map_iff. exists (g, Some t). split; [reflexivity|].
      apply filter_In. split; [exact Hp|]. simpl. rewrite Ht. simpl.
      apply String.eqb_refl.
    - apply in_map_iff. exists (t, ss, es). split; [reflexivity|].
      apply filter_In. split; [exact Hentry|]. simpl. now apply opt_eqb_eq. }
  eexists. split.
  - unfold MakeSpliceTable.final_df_ordered. fold parsed.
    apply in_map. unfold MakeSpliceTable.principal_transcripts_with_exons_filtered.
    apply in_map. apply filter_In. split; [exact Ha|].
    cbn [MakeSpliceTable.exon_start_sites a]. now apply Nat.leb_le.
  - simpl. repeat split; auto.
Qed.

Lemma X17_primary_transcript_written_witness :
  exists row,
    In row (MakeSpliceTable.final_df_ordered Sample.gtf_data [])
    /\ MakeSpliceTable.f_transcript_id row = Some "T2"%string
    /\ MakeSpliceTable.f_start row = 100 /\ MakeSpliceTable.f_end row = 950.
Proof.
  destruct (X17_primary_transcript_written Sample.gtf_data []
              (MakeSpliceTable.parse
                 (Sample.record "transcript" 100 950
                    (Sample.of_transcript "T2" ["appris_principal_2"])))
              "G1.1" "T2")
    as (row & Hin & Hid & _ & _ & Hs & He).
  - vm_compute. right. left. reflexivity.
  - vm_compute. reflexivity.
  - vm_compute. left. reflexivity.
  - vm_compute. repeat constructor.
  - exists row. split; [exact Hin|]. split; [exact Hid|].
    split; [exact Hs | exact He].
Defined.

(** ** The order of the rows of the per-site table *)

Lemma key_eqb_sym (a b : LeafcutterPsi.dkey) :
  LeafcutterPsi.key_eqb a b = LeafcutterPsi.key_eqb b a.
Proof.
  destruct (LeafcutterPsi.key_eqb b a) eqn:E.
  - apply key_eqb_eq in E. subst. apply key_eqb_refl.
  - apply key_eqb_neq. intros ->. now rewrite key_eqb_refl in E.
Qed.

Lemma existsb_dict_get (k : LeafcutterPsi.dkey) (d : LeafcutterPsi.dict) :
  existsb (LeafcutterPsi.key_eqb k) (map fst d)
  = match LeafcutterPsi.dict_get k d with Some _ => true | None => false end.
Proof.
  induction d as [|[k' a] d IH]; simpl; [reflexivity|].
  now destruct (LeafcutterPsi.key_eqb k k').
Qed.

Lemma add_position_add_key (k : LeafcutterPsi.dkey) (r : LeafcutterPsi.decoded_row)
  (d : LeafcutterPsi.dict) :
  map fst (LeafcutterPsi.add_position k r d) = add_key (map fst d) k.
Proof.
  rewrite add_position_keys. unfold add_key. rewrite existsb_dict_get.
  now destruct (LeafcutterPsi.dict_get k d).
Qed.

Lemma accumulate_key_order (rows : list LeafcutterPsi.decoded_row) :
  forall d,
    map fst (fold_left LeafcutterPsi.accumulate_row rows d)
    = fold_left add_key (flat_map keys_of_row rows) (map fst d).
Proof.
  induction rows as [|r rows IH]; intros d; simpl; [reflexivity|].
  rewrite IH. unfold LeafcutterPsi.accumulate_row.
  now rewrite !add_position_add_key.
Qed.

Lemma filter_filter {A : Type} (p q : A -> bool) (l : list A) :
  filter p (filter q l) = filter (fun x => p x && q x) l.
Proof.
  induction l as [|x l IH]; simpl; [reflexivity|].
  destruct (q x); simpl; rewrite ?andb_true_r, ?andb_false_r;
    [destruct (p x)|]; now rewrite IH.
Qed.

Lemma fold_add_key (l : list LeafcutterPsi.dkey) :
  forall ks,
    fold_left add_key l ks
    = ks ++ filter (fun k => negb (existsb (LeafcutterPsi.key_eqb k) ks))
                   (first_occurrences l).
Proof.
  induction l as [|k l IH]; intros ks; simpl; [now rewrite app_nil_r|].
  rewrite IH. unfold add_key. destruct (existsb (LeafcutterPsi.key_eqb k) ks) eqn:E.
  - simpl. f_equal. rewrite filter_filter. apply filter_ext_in. intros x _.
    destruct (LeafcutterPsi.key_eqb k x) eqn:Ex; simpl;
      [|now rewrite andb_true_r].
    apply key_eqb_eq in Ex. subst x. now rewrite E.
  - simpl. rewrite <- app_assoc. simpl. do 2 f_equal.
    rewrite filter_filter. apply filter_ext. intros x.
    rewrite existsb_app. simpl. rewrite orb_false_r, negb_orb.
    now rewrite (key_eqb_sym x k).
Qed.

(** X18. The rows of the per-site table come in the order in which their keys
    are first met when the introns are read from the top, the [exon_start] of
    an intron before its [exon_end]. *)
Theorem X18_rows_in_order_of_first_occurrence :
  forall (df : list LeafcutterPsi.intron_row)
         (rows : list LeafcutterPsi.decoded_row)
         (out : list LeafcutterPsi.summed_row),
    LeafcutterPsi.decode_all df = Some rows ->
    LeafcutterPsi.process_leafcutter_data df = Some out ->
    map key_of out = first_occurrences (flat_map keys_of_row rows).
Proof.
  intros df rows out Hdec Hout.
  unfold LeafcutterPsi.process_leafcutter_data in Hout. rewrite Hdec in Hout.
  inversion Hout; subst out. rewrite summed_keys.
  unfold LeafcutterPsi.position_accumulator.
  rewrite accumulate_key_order, fold_add_key. simpl.
  induction (first_occurrences (flat_map keys_of_row rows)) as [|x l IH];
    simpl; congruence.
Qed.

Lemma X18_rows_in_order_of_first_occurrence_witness :
  exists out,
    LeafcutterPsi.process_leafcutter_data [Sample.intron_a; Sample.intron_b]
    = Some out
    /\ map key_of out
       = [("clu_1"%string, 501, "exon_start"%string);
          ("clu_1"%string, 99, "exon_end"%string);
          ("clu_1"%string, 199, "exon_end"%string)].
Proof.
  eexists. split; [vm_compute; reflexivity|].
  etransitivity.
  - eapply (X18_rows_in_order_of_first_occurrence [Sample.intron_a; Sample.intron_b]);
      vm_compute; reflexivity.
  - vm_compute. reflexivity.
Defined.

(** ** Tables that share no chromosome *)

Lemma no_chromosome_no_match (df : list observation) (r : row) :
  numeric_span r ->
  (forall o, In o df -> cell_eqb (chromosome o) (col 2 r) = false) ->
  has_match df r = false.
Proof.
  intros Hn H. unfold has_match, join_of.
  replace (matching_rows r df) with (Some (@nil observation)); [reflexivity|].
  symmetry. destruct Hn as [H4 H5].
  induction df as [|o df IH]; simpl; [reflexivity|].
  rewrite IH by (intros x Hx; apply H; now right).
  unfold mask. rewrite (H o (or_introl eq_refl)).
  destruct (col 4 r), (col 5 r); simpl in *; try discriminate; reflexivity.
Qed.

Lemma filter_none {A : Type} (p : A -> bool) (l : list A) :
  (forall x, In x l -> p x = false) -> filter p l = [].
Proof.
  induction l as [|x l IH]; intros H; simpl; [reflexivity|].
  rewrite (H x (or_introl eq_refl)). apply IH. intros y Hy. apply H. now right.
Qed.

(** X19. When no observation has the chromosome of any row of the splice
    table (the two tables name their chromosomes differently, a chromosome
    cell is missing, or the observation table is empty), the LeafCutter and
    rMATS assemblers end without an error and write an empty file. *)
Theorem X19_no_shared_chromosome_empty_file :
  forall (parse : string -> option Z) (df : list observation) (file : list row)
         (n : nat) (sched : list nat),
    file <> [] ->
    Pool.admissible (S n) (seq 0 (List.length file)) sched = true ->
    (forall r o, In r file -> In o df ->
                 cell_eqb (chromosome o) (col 2 r) = false) ->
    LeafcutterTable.process_splice_table parse df file (S n) sched = Some ""%string
    /\ RmatsTable.process_rmats_splice_table parse df file = Some ""%string.
Proof.
  intros parse df file n sched Hne Hs H.
  assert (Hf : filter (has_match df) (map (LeafcutterTable.coerce parse) file) = []).
  { apply filter_none. intros c Hc. apply in_map_iff in Hc as (r & <- & Hr).
    apply no_chromosome_no_match; [apply coerce_numeric_span|].
    intros o Ho. rewrite coerce_col_other by lia. now apply H. }
  split.
  - unfold LeafcutterTable.process_splice_table.
    rewrite leafcutter_emitted_matched by assumption. now rewrite Hf.
  - unfold RmatsTable.process_rmats_splice_table.
    rewrite rmats_emitted_matched by assumption.
    rewrite (map_ext _ _ (rmats_coerce_same parse)). now rewrite Hf.
Qed.

Lemma X19_no_shared_chromosome_empty_file_witness :
  LeafcutterTable.process_splice_table Py.int_of_str Sample.observations
    [Sample.T2] 4 [0%nat] = Some ""%string.
Proof.
  refine (proj1 (X19_no_shared_chromosome_empty_file Py.int_of_str
                   Sample.observations [Sample.T2] 3 [0%nat] _ _ _)).
  - discriminate.
  - reflexivity.
  - intros r o [<-|[]] Ho. simpl in Ho.
    repeat (destruct Ho as [<-|Ho]; [reflexivity|]). contradiction.
Defined.
